(** * Tech Insights backend plugin: fact retriever and README probe

    A shallow embedding of
    [workspaces/tech-insights/packages/backend/src/plugins/tech-insights.ts]:
    the exported [checks] list, the [apiDefinitionFactRetriever] descriptor
    with its [handler], and the private helper [checkReadmeFile].

    JavaScript strings are [string]; a value that may be [undefined] is an
    [option]; a call that may throw returns an [Outcome]; logging and calls
    to the URL reader are recorded as a trace of [Event]s. *)

From Stdlib Require Import String Ascii List Bool Arith Lia DecimalString.
From stdpp Require Import base option gmap strings.

Import ListNotations.
Local Open Scope string_scope.
Local Open Scope list_scope.

(** ** JavaScript strings *)

Module JsString.

(** [s.endsWith(w)]. *)
Fixpoint endsWith (s w : string) : bool :=
  if String.eqb s w then true
  else match s with
       | EmptyString => false
       | String _ s' => endsWith s' w
       end.

(** [w] is a suffix of [s]. *)
Definition is_suffix (w s : string) : Prop := exists p, s = p +:+ w.

End JsString.

(** ** Regular expressions

    The fragment of ECMAScript patterns the plugin uses: literal characters
    (escaped or not), concatenation, alternation inside a non-capturing
    group, the greedy optional [?] and the end anchor [$] (no [m] flag, so
    it holds only at the end of the input). *)

Module Regex.

Inductive regex : Type :=
| RChar (c : ascii)
| RSeq (r1 r2 : regex)
| RAlt (r1 r2 : regex)
| ROpt (r : regex)
| REmpty
| REnd.

(** A run of literal characters. *)
Fixpoint RLit (w : string) : regex :=
  match w with
  | EmptyString => REmpty
  | String c w' => RSeq (RChar c) (RLit w')
  end.

(** Backtracking matcher at the start of [s]: alternatives are tried left
    to right, [?] tries its body before skipping it, and [k] receives the
    input left after the part matched so far. *)
Fixpoint rmatch (r : regex) (s : string) (k : string -> option string)
  : option string :=
  match r with
  | RChar c =>
      match s with
      | String d s' => if Ascii.eqb c d then k s' else None
      | EmptyString => None
      end
  | RSeq r1 r2 => rmatch r1 s (fun s' => rmatch r2 s' k)
  | RAlt r1 r2 =>
      match rmatch r1 s k with
      | Some rest => Some rest
      | None => rmatch r2 s k
      end
  | ROpt r1 =>
      match rmatch r1 s k with
      | Some rest => Some rest
      | None => k s
      end
  | REmpty => k s
  | REnd =>
      match s with
      | EmptyString => k s
      | String _ _ => None
      end
  end.

(** [re.exec(s)] for a pattern without the [g] flag: the leftmost position
    at which the pattern matches, as the text before the match and the
    text after it. *)
Fixpoint exec (r : regex) (s : string) : option (string * string) :=
  match rmatch r s Some with
  | Some rest => Some (EmptyString, rest)
  | None =>
      match s with
      | EmptyString => None
      | String c s' =>
          match exec r s' with
          | Some (pre, rest) => Some (String c pre, rest)
          | None => None
          end
      end
  end.

(** [re.test(s)]. *)
Definition test (r : regex) (s : string) : bool :=
  match exec r s with Some _ => true | None => false end.

(** [s.replace(re, repl)] for a pattern without the [g] flag and a
    replacement text without [$] patterns: the first match is replaced,
    and [s] is returned as it is when there is none. *)
Definition replace (s : string) (r : regex) (repl : string) : string :=
  match exec r s with
  | Some (pre, rest) => pre +:+ repl +:+ rest
  | None => s
  end.

(** No [$] inside. *)
Fixpoint anchor_free (r : regex) : bool :=
  match r with
  | RChar _ | REmpty => true
  | RSeq r1 r2 | RAlt r1 r2 => anchor_free r1 && anchor_free r2
  | ROpt r1 => anchor_free r1
  | REnd => false
  end.

(** The words an anchor-free pattern can consume. *)
Fixpoint words (r : regex) : list string :=
  match r with
  | RChar c => [String c EmptyString]
  | RSeq r1 r2 =>
      flat_map (fun w1 => map (String.append w1) (words r2)) (words r1)
  | RAlt r1 r2 => words r1 ++ words r2
  | ROpt r1 => words r1 ++ [EmptyString]
  | REmpty | REnd => [EmptyString]
  end.

(** No word of [body] is a suffix of [v] or has [v] as a suffix. *)
Definition clear_of (body : regex) (v : string) : bool :=
  forallb (fun w => negb (JsString.endsWith v w) && negb (JsString.endsWith w v))
    (words body).

(** [w] is a word of [body], and a proper suffix of no word of [body]. *)
Definition longest_with (body : regex) (w : string) : bool :=
  existsb (String.eqb w) (words body)
  && forallb (fun w' => implb (JsString.endsWith w' w) (String.eqb w' w))
       (words body).

End Regex.

(** ** JavaScript values

    The values the expression for [hasDefinition] can take. *)

Module JsValue.

Inductive t : Type :=
| Undefined
| Bool (b : bool)
| Str (s : string).

(** ToBoolean: [undefined] and the empty string are falsy. *)
Definition truthy (v : t) : bool :=
  match v with
  | Undefined => false
  | Bool b => b
  | Str s => negb (String.eqb s EmptyString)
  end.

(** Strict equality with the boolean [b]. *)
Definition is_bool (b : bool) (v : t) : Prop := v = Bool b.

End JsValue.

(** ** Effects: exceptions, and a trace of log lines and search calls *)

Module Eff.

(** A thrown value, by the text [`${error}`] renders it to. *)
Record Exn : Type := { exn_text : string }.

Inductive Outcome (A : Type) : Type :=
| Returns (a : A)
| Throws (e : Exn).
Arguments Returns {A} a.
Arguments Throws {A} e.

Inductive Event : Type :=
| LogInfo (msg : string)   (* logger.info(msg) *)
| Search (url : string).   (* reader.search(url) *)

Definition M (A : Type) : Type := (list Event * Outcome A)%type.

Definition ret {A} (a : A) : M A := ([], Returns a).

Definition bind {A B} (m : M A) (f : A -> M B) : M B :=
  match m with
  | (t, Returns a) => let '(t', o) := f a in (t ++ t', o)
  | (t, Throws e) => (t, Throws e)
  end.

Definition liftO {A} (o : Outcome A) : M A := ([], o).

Definition emit (ev : Event) : M unit := ([ev], Returns tt).

(** [try { body } catch (error) { handler(error) }] *)
Definition try_catch {A} (body : M A) (handler : Exn -> M A) : M A :=
  match body with
  | (t, Returns a) => (t, Returns a)
  | (t, Throws e) => let '(t', o) := handler e in (t ++ t', o)
  end.

(** [Promise.all]: every promise of the list has been started, so the
    effects of all of them happen; the result has one slot per promise, in
    the order of the list. The trace lists the effects promise by promise,
    which is the schedule in which each search answers at once, and a
    rejection is reported for the first promise of the list that rejects;
    no property below depends on either choice. *)
Fixpoint promise_all {A} (ps : list (M A)) : M (list A) :=
  match ps with
  | [] => ret []
  | p :: rest =>
      let '(t1, o1) := p in
      let '(t2, o2) := promise_all rest in
      (t1 ++ t2,
       match o1, o2 with
       | Throws e, _ => Throws e
       | Returns _, Throws e => Throws e
       | Returns a, Returns l => Returns (a :: l)
       end)
  end.

Definition trace {A} (m : M A) : list Event := fst m.
Definition outcome {A} (m : M A) : Outcome A := snd m.

(** The URLs given to [reader.search], in call order. *)
Fixpoint search_calls (t : list Event) : list string :=
  match t with
  | [] => []
  | Search url :: t' => url :: search_calls t'
  | LogInfo _ :: t' => search_calls t'
  end.

(** The lines given to [logger.info], in call order. *)
Fixpoint log_lines (t : list Event) : list string :=
  match t with
  | [] => []
  | LogInfo msg :: t' => msg :: log_lines t'
  | Search _ :: t' => log_lines t'
  end.

Declare Scope eff_scope.
Delimit Scope eff_scope with eff.
Notation "'let*' x ':=' c1 'in' c2" := (bind c1 (fun x => c2))
  (at level 10, x name, c1 at level 100, c2 at level 200) : eff_scope.
Notation "c1 ';;;' c2" := (bind c1 (fun _ => c2))
  (at level 100, c2 at level 200, right associativity) : eff_scope.

End Eff.

Import Eff.
Local Open Scope eff_scope.

(** ** Collaborators *)

(** [@backstage/catalog-model]: entities and location references. *)

Module Entity.

Record Metadata : Type := {
  namespace : option string;
  name : string;
  annotations : option (gmap string string)
}.

(** The part of [ApiEntityV1alpha1.spec] the plugin reads. *)
Record ApiSpec : Type := { definition : option string }.

Record t : Type := {
  kind : string;
  metadata : Metadata;
  spec : option ApiSpec
}.

End Entity.

Record LocationRef : Type := { type : string; target : string }.

Class CatalogModel : Type := {
  ANNOTATION_SOURCE_LOCATION : string;
  parseLocationRef : string -> Outcome LocationRef
}.

(** [@backstage-community/plugin-tech-insights-backend-module-jsonfc] *)
Class JsonFc : Type := {
  JSON_RULE_ENGINE_CHECK_TYPE : string
}.

(** [@backstage/backend-plugin-api]: the URL reader and the auth service.
    [LoggerService.info] is the [LogInfo] event of the trace. *)

Record SearchResponseFile : Type := { url : string }.

(** [files] is optional here because the source reads [response.files?.length]. *)
Record SearchResponse : Type := { files : option (list SearchResponseFile) }.

Record UrlReaderService : Type := {
  search : string -> Outcome SearchResponse
}.

Record TokenOptions (Credentials : Type) : Type := {
  onBehalfOf : Credentials;
  targetPluginId : string
}.
Arguments onBehalfOf {Credentials} _.
Arguments targetPluginId {Credentials} _.

Record TokenResult : Type := { token : string }.

Record AuthService (Credentials : Type) : Type := {
  getOwnServiceCredentials : Outcome Credentials;
  getPluginRequestToken : TokenOptions Credentials -> Outcome TokenResult
}.
Arguments getOwnServiceCredentials {Credentials} _.
Arguments getPluginRequestToken {Credentials} _ _.

(** [@backstage/catalog-client] *)

Record EntityFilter : Type := { filter_kind : list string }.
Record GetEntitiesRequest : Type := { filter : EntityFilter }.
Record GetEntitiesResponse : Type := { items : list Entity.t }.

Class CatalogClientApi (Discovery : Type) : Type := {
  getEntities :
    Discovery -> GetEntitiesRequest -> TokenResult -> Outcome GetEntitiesResponse
}.

(** [@backstage-community/plugin-tech-insights-node] *)

Record FactRetrieverContext (Discovery Credentials : Type) : Type := {
  discovery : Discovery;
  auth : AuthService Credentials;
  urlReader : UrlReaderService
}.
Arguments discovery {Discovery Credentials} _.
Arguments auth {Discovery Credentials} _.
Arguments urlReader {Discovery Credentials} _.

Module Fact.

Record EntityRef : Type := {
  namespace : option string;
  kind : string;
  name : string
}.

Record Facts : Type := {
  hasDefinition : JsValue.t;
  hasReadme : bool
}.

Record t : Type := {
  entity : EntityRef;
  facts : Facts
}.

End Fact.

(** ** The plugin module *)

Module Check.

Record Condition : Type := {
  fact : string;
  operator : string;
  value : bool
}.

(** [{ all: [...] }], the only combinator the module uses. *)
Record Conditions : Type := { all : list Condition }.

Record Rule : Type := { conditions : Conditions }.

Record t : Type := {
  id : string;
  type : string;
  name : string;
  description : string;
  factIds : list string;
  rule : Rule
}.

End Check.

Module FactSchema.

Record Entry : Type := {
  type : string;
  description : string
}.

(** The schema object, as its fields in source order. *)
Definition t : Type := list (string * Entry).

End FactSchema.

Module Retriever.

Record t (Handler : Type) : Type := {
  id : string;
  version : string;
  title : string;
  description : string;
  schema : FactSchema.t;
  handler : Handler
}.
Arguments id {Handler} _.
Arguments version {Handler} _.
Arguments title {Handler} _.
Arguments description {Handler} _.
Arguments schema {Handler} _.
Arguments handler {Handler} _.

End Retriever.

(** [`${n}`] for a length. *)
Definition number_to_string (n : nat) : string :=
  NilZero.string_of_uint (Nat.to_uint n).

(** [`${response.files?.length}`] *)
Definition files_length_text (response : SearchResponse) : string :=
  match files response with
  | Some fs => number_to_string (length fs)
  | None => "undefined"
  end.

(** What reading [.length] of [undefined] throws. *)
Definition TypeError_length : Exn :=
  {| exn_text :=
       "TypeError: Cannot read properties of undefined (reading 'length')" |}.

Section Plugin.

Context {Discovery Credentials : Type}.
Context `{CatalogModel} `{JsonFc} `{CatalogClientApi Discovery}.

Definition checks : list Check.t :=
  [ {| Check.id := "groupOwnerCheck";
       Check.type := JSON_RULE_ENGINE_CHECK_TYPE;
       Check.name := "Group Owner Check";
       Check.description :=
         "Verifies that a Group has been set as the owner for this entity";
       Check.factIds := ["entityOwnershipFactRetriever"];
       Check.rule :=
         {| Check.conditions :=
              {| Check.all :=
                   [ {| Check.fact := "hasGroupOwner";
                        Check.operator := "equal";
                        Check.value := true |} ] |} |} |};
    {| Check.id := "apiDefinitionCheck";
       Check.type := JSON_RULE_ENGINE_CHECK_TYPE;
       Check.name := "API definition Check";
       Check.description := "Verifies that a API has a definition set";
       Check.factIds := ["apiDefinitionFactRetriever"];
       Check.rule :=
         {| Check.conditions :=
              {| Check.all :=
                   [ {| Check.fact := "hasDefinition";
                        Check.operator := "equal";
                        Check.value := true |};
                     {| Check.fact := "hasReadme";
                        Check.operator := "equal";
                        Check.value := true |} ] |} |} |} ].

(** The four patterns of [checkReadmeFile], in source order:
    [/\/catalog-info\.yaml$/], [/\%2Fcatalog-info\.yaml$/],
    [/\/\.devhub\/(?:dev\/|int\/|prod\/)?components\.yaml$/] and
    [/\%2F\.devhub\%2F(?:dev\%2F|int\%2F|prod\%2F)?components\.yaml$/]. *)
Definition COMPONENT_LOCATIONS_REGEX : list Regex.regex :=
  let lit := Regex.RLit in
  let seq := Regex.RSeq in
  let alt := Regex.RAlt in
  [ seq (lit "/catalog-info.yaml") Regex.REnd;
    seq (lit "%2Fcatalog-info.yaml") Regex.REnd;
    seq (seq (lit "/.devhub/")
           (seq (Regex.ROpt (alt (lit "dev/") (alt (lit "int/") (lit "prod/"))))
              (lit "components.yaml")))
      Regex.REnd;
    seq (seq (lit "%2F.devhub%2F")
           (seq (Regex.ROpt
                   (alt (lit "dev%2F") (alt (lit "int%2F") (lit "prod%2F"))))
              (lit "components.yaml")))
      Regex.REnd ].

(** [COMPONENT_LOCATIONS_REGEX.reduce((str, re) => str.replace(re, '/README.md'), target)] *)
Definition readmeUrlOf (target : string) : string :=
  fold_left (fun str re => Regex.replace str re "/README.md")
    COMPONENT_LOCATIONS_REGEX target.

(** [entity.metadata.annotations?.[ANNOTATION_SOURCE_LOCATION]] *)
Definition sourceLocationOf (entity : Entity.t) : option string :=
  match Entity.annotations (Entity.metadata entity) with
  | Some anns => anns !! ANNOTATION_SOURCE_LOCATION
  | None => None
  end.

Definition checkReadmeFile (entity : Entity.t) (reader : UrlReaderService)
  : M bool :=
  match sourceLocationOf entity with
  | None => ret false
  | Some sourceLocation =>
      (* [!sourceLocation] also holds of the empty string *)
      if String.eqb sourceLocation "" then ret false
      else
        try_catch
          (let* sourceLocationRef := liftO (parseLocationRef sourceLocation) in
           let readmeUrl := readmeUrlOf (target sourceLocationRef) in
           emit (LogInfo ("->>> searching " +:+ readmeUrl)) ;;;
           let* response := (emit (Search readmeUrl) ;;;
                             liftO (search reader readmeUrl)) in
           emit (LogInfo ("->>> " +:+ files_length_text response
                            +:+ ", " +:+ readmeUrl)) ;;;
           let* fs := liftO (match files response with
                             | Some fs => Returns fs
                             | None => Throws TypeError_length
                             end) in
           ret (Nat.eqb (length fs) 1))
          (fun error =>
             emit (LogInfo ("-->>> " +:+ exn_text error)) ;;;
             ret false)
  end.

(** [(entity as ApiEntityV1alpha1).spec?.definition] *)
Definition specDefinition (entity : Entity.t) : JsValue.t :=
  match Entity.spec entity with
  | None => JsValue.Undefined
  | Some sp =>
      match Entity.definition sp with
      | None => JsValue.Undefined
      | Some d => JsValue.Str d
      end
  end.

(** [(entity as ApiEntityV1alpha1).spec?.definition.length > 0]: the
    optional chain gives [undefined] without a [spec], and
    [undefined > 0] is [false]; with a [spec] that has no [definition],
    reading [.length] throws. *)
Definition specDefinitionNonEmpty (entity : Entity.t) : Outcome JsValue.t :=
  match Entity.spec entity with
  | None => Returns (JsValue.Bool false)
  | Some sp =>
      match Entity.definition sp with
      | None => Throws TypeError_length
      | Some d => Returns (JsValue.Bool (Nat.ltb 0 (String.length d)))
      end
  end.

(** [a && b]: [a] when [a] is falsy, and only then is [b] not evaluated. *)
Definition js_and (a : JsValue.t) (b : Outcome JsValue.t) : Outcome JsValue.t :=
  if JsValue.truthy a then b else Returns a.

(** The function mapped over [entities.items]. *)
Definition entityFact (reader : UrlReaderService) (entity : Entity.t)
  : M Fact.t :=
  let entityRef :=
    {| Fact.namespace := Entity.namespace (Entity.metadata entity);
       Fact.kind := Entity.kind entity;
       Fact.name := Entity.name (Entity.metadata entity) |} in
  let* hasDefinition :=
    liftO (js_and (specDefinition entity) (specDefinitionNonEmpty entity)) in
  let* hasReadme := checkReadmeFile entity reader in
  ret {| Fact.entity := entityRef;
         Fact.facts := {| Fact.hasDefinition := hasDefinition;
                          Fact.hasReadme := hasReadme |} |}.

Definition handler (ctx : FactRetrieverContext Discovery Credentials)
  : M (list Fact.t) :=
  let* credentials := liftO (getOwnServiceCredentials (auth ctx)) in
  let* tokenResult :=
    liftO (getPluginRequestToken (auth ctx)
             {| onBehalfOf := credentials; targetPluginId := "catalog" |}) in
  let catalogClient := discovery ctx in
  let* entities :=
    liftO (getEntities catalogClient
             {| filter := {| filter_kind := ["API"] |} |} tokenResult) in
  promise_all (map (entityFact (urlReader ctx)) (items entities)).

Definition apiDefinitionFactRetriever
  : Retriever.t (FactRetrieverContext Discovery Credentials -> M (list Fact.t)) :=
  {| Retriever.id := "apiDefinitionFactRetriever";
     Retriever.version := "0.0.1";
     Retriever.title := "API Definition";
     Retriever.description :=
       "Generates facts which indicate the completeness of API spec";
     Retriever.schema :=
       [ ("hasDefinition",
          {| FactSchema.type := "boolean";
             FactSchema.description := "The entity has a definition in spec" |});
         ("hasReadme",
          {| FactSchema.type := "boolean";
             FactSchema.description := "The entity has a readme file" |}) ];
     Retriever.handler := handler |}.

(** What the module exports, in source order. *)
Inductive Export : Type :=
| ExportChecks (export_name : string) (cs : list Check.t)
| ExportFactRetriever (export_name : string)
    (r : Retriever.t (FactRetrieverContext Discovery Credentials -> M (list Fact.t))).

Definition module_exports : list Export :=
  [ ExportChecks "checks" checks;
    ExportFactRetriever "apiDefinitionFactRetriever" apiDefinitionFactRetriever ].

Definition exported_fact_retrievers
  : list (Retriever.t (FactRetrieverContext Discovery Credentials -> M (list Fact.t))) :=
  flat_map (fun e => match e with
                     | ExportFactRetriever _ r => [r]
                     | ExportChecks _ _ => []
                     end) module_exports.

Definition exported_check_lists : list (list Check.t) :=
  flat_map (fun e => match e with
                     | ExportChecks _ cs => [cs]
                     | ExportFactRetriever _ _ => []
                     end) module_exports.

End Plugin.

(** ** The descriptor-file conventions, as the documentation words them *)

Module Convention.

(** [/catalog-info.yaml], plain or with the slash percent-encoded. *)
Definition catalogInfoSuffix (encoded : bool) : string :=
  if encoded then "%2Fcatalog-info.yaml" else "/catalog-info.yaml".

(** The three environment subdirectories. *)
Definition environments : list string := ["dev"; "int"; "prod"].

(** [/.devhub/<env>/components.yaml], plain or with the slashes
    percent-encoded. *)
Definition componentsYamlSuffix (encoded : bool) (env : string) : string :=
  if encoded
  then "%2F.devhub%2F" +:+ env +:+ "%2Fcomponents.yaml"
  else "/.devhub/" +:+ env +:+ "/components.yaml".

(** The suffixes each of the four patterns is written for, pattern by
    pattern: the descriptor file, plain and encoded, and the components
    file under an environment directory or directly under [.devhub], plain
    and encoded. *)
Definition suffixFamilies : list (list string) :=
  [ [ "/catalog-info.yaml" ];
    [ "%2Fcatalog-info.yaml" ];
    [ "/.devhub/dev/components.yaml"; "/.devhub/int/components.yaml";
      "/.devhub/prod/components.yaml"; "/.devhub/components.yaml" ];
    [ "%2F.devhub%2Fdev%2Fcomponents.yaml"; "%2F.devhub%2Fint%2Fcomponents.yaml";
      "%2F.devhub%2Fprod%2Fcomponents.yaml"; "%2F.devhub%2Fcomponents.yaml" ] ].

Definition descriptorSuffixes : list string := concat suffixFamilies.


End Convention.

(** ** Sample collaborators, for concrete runs *)

Module Sample.

(** A location parser in the shape [<type>:<target>]: the text before the
    first colon and the text after it; it throws without a colon or when
    one side is empty. *)
Fixpoint split_colon (s : string) : option (string * string) :=
  match s with
  | EmptyString => None
  | String c s' =>
      if Ascii.eqb c ":" then Some (EmptyString, s')
      else match split_colon s' with
           | Some (a, b) => Some (String c a, b)
           | None => None
           end
  end.

Definition parse (ref : string) : Outcome LocationRef :=
  match split_colon ref with
  | Some (String c ty, String d tg) =>
      Returns {| type := String c ty; target := String d tg |}
  | _ => Throws {| exn_text := "TypeError: Unable to parse location ref" |}
  end.

Definition catalogModel : CatalogModel :=
  {| ANNOTATION_SOURCE_LOCATION := "backstage.io/source-location";
     parseLocationRef := parse |}.

Definition jsonFc : JsonFc :=
  {| JSON_RULE_ENGINE_CHECK_TYPE := "json-rules-engine" |}.

(** A catalog that lists [es] whatever the request, or fails. *)
Definition catalogOf (es : list Entity.t) : CatalogClientApi unit :=
  {| getEntities := fun _ _ _ => Returns {| items := es |} |}.

Definition catalogDown : CatalogClientApi unit :=
  {| getEntities := fun _ _ _ => Throws {| exn_text := "Error: catalog down" |} |}.

Definition authOk : AuthService unit :=
  {| getOwnServiceCredentials := Returns tt;
     getPluginRequestToken := fun _ => Returns {| token := "t0" |} |}.

(** A reader that finds [n] files at every URL. *)
Definition readerFinding (n : nat) : UrlReaderService :=
  {| search := fun u =>
       Returns {| files := Some (repeat {| url := u |} n) |} |}.

Definition readerDown : UrlReaderService :=
  {| search := fun _ => Throws {| exn_text := "Error: not found" |} |}.

Definition ctx (reader : UrlReaderService) : FactRetrieverContext unit unit :=
  {| discovery := tt; auth := authOk; urlReader := reader |}.

(** An API entity with the given source location and definition. *)
Definition api (nm : string) (loc : option string) (def : option string)
  : Entity.t :=
  {| Entity.kind := "API";
     Entity.metadata :=
       {| Entity.namespace := Some "default";
          Entity.name := nm;
          Entity.annotations :=
            match loc with
            | Some l => Some {[ "backstage.io/source-location" := l ]}
            | None => None
            end |};
     Entity.spec := Some {| Entity.definition := def |} |}.

Definition orders : Entity.t :=
  api "orders"
    (Some "url:https://git.example/acme/orders/blob/main/catalog-info.yaml")
    (Some "openapi: 3.0.0").

Definition ordersEncoded : Entity.t :=
  api "orders-encoded"
    (Some "url:https://git.example/acme/orders/blob/main%2Fcatalog-info.yaml")
    (Some "openapi: 3.0.0").

Definition billing : Entity.t :=
  api "billing"
    (Some "url:https://git.example/acme/billing/.devhub/prod/components.yaml")
    (Some "").

Definition billingEncoded : Entity.t :=
  api "billing-encoded"
    (Some "url:https://git.example/acme/billing%2F.devhub%2Fint%2Fcomponents.yaml")
    None.

Definition legacy : Entity.t :=
  api "legacy" (Some "url:https://git.example/acme/legacy/service.yaml") None.

Definition unparsable : Entity.t :=
  api "unparsable" (Some "no-colon-in-here") (Some "asyncapi: 2.0.0").

Definition unlocated : Entity.t := api "unlocated" None (Some "").

(** An entity whose source-location annotation is the empty string. *)
Definition blank : Entity.t := api "blank" (Some "") (Some "openapi: 3.0.0").

(** An entity without a [spec]. *)
Definition bare : Entity.t :=
  {| Entity.kind := "API";
     Entity.metadata :=
       {| Entity.namespace := Some "default";
          Entity.name := "bare";
          Entity.annotations := None |};
     Entity.spec := None |}.

End Sample.

(** * Properties *)

(** ** Strings *)

Section StringFacts.

Import JsString.

Lemma string_app_nil_l (s : string) : "" +:+ s = s.
Proof. reflexivity. Qed.

Lemma string_app_cons (c : ascii) (a b : string) :
  String c a +:+ b = String c (a +:+ b).
Proof. reflexivity. Qed.

Lemma string_app_nil_r (s : string) : s +:+ "" = s.
Proof.
  induction s as [|c s IH]; [reflexivity|].
  now rewrite string_app_cons, IH.
Qed.

Lemma string_app_assoc (a b c : string) : (a +:+ b) +:+ c = a +:+ b +:+ c.
Proof.
  induction a as [|x a IH]; [reflexivity|].
  now rewrite !string_app_cons, IH.
Qed.

Lemma string_app_length (a b : string) :
  String.length (a +:+ b) = String.length a + String.length b.
Proof.
  induction a as [|x a IH]; [reflexivity|].
  rewrite string_app_cons. simpl. now rewrite IH.
Qed.

Lemma is_suffix_refl (s : string) : is_suffix s s.
Proof. now exists "". Qed.

Lemma is_suffix_tail (w : string) (c : ascii) (s : string) :
  is_suffix w s -> is_suffix w (String c s).
Proof. intros [p ->]. now exists (String c p). Qed.

Lemma is_suffix_of_tail (w : string) (c : ascii) (s : string) :
  is_suffix w (String c s) -> w = String c s \/ is_suffix w s.
Proof.
  intros [p Hp]. destruct p as [|d p].
  - left. now rewrite string_app_nil_l in Hp.
  - right. rewrite string_app_cons in Hp. injection Hp as _ ->. now exists p.
Qed.

Lemma endsWith_nil (w : string) :
  endsWith "" w = if String.eqb "" w then true else false.
Proof. reflexivity. Qed.

Lemma endsWith_cons (c : ascii) (s w : string) :
  endsWith (String c s) w
  = if String.eqb (String c s) w then true else endsWith s w.
Proof. reflexivity. Qed.

Lemma endsWith_spec (s w : string) : endsWith s w = true <-> is_suffix w s.
Proof.
  induction s as [|c s IH].
  - rewrite endsWith_nil. destruct (String.eqb_spec "" w) as [<-|Hne].
    + split; [intros _; apply is_suffix_refl | reflexivity].
    + split; [intros Hf; discriminate Hf|].
      intros [p Hp]. destruct p.
      * now rewrite string_app_nil_l in Hp.
      * now rewrite string_app_cons in Hp.
  - rewrite endsWith_cons.
    destruct (String.eqb_spec (String c s) w) as [<-|Hne].
    + split; [intros _; apply is_suffix_refl | reflexivity].
    + rewrite IH. split.
      * apply is_suffix_tail.
      * intros Hs. apply is_suffix_of_tail in Hs as [->|Hs]; [congruence|exact Hs].
Qed.

Lemma endsWith_false (s w : string) :
  endsWith s w = false -> ~ is_suffix w s.
Proof. intros Hf Hs. apply endsWith_spec in Hs. congruence. Qed.

(** Two suffixes of one string: one of them is a suffix of the other. *)
Lemma suffix_comparable (a b v w : string) :
  a +:+ v = b +:+ w -> is_suffix w v \/ is_suffix v w.
Proof.
  revert b. induction a as [|x a IH]; intros b Heq.
  - left. now exists b.
  - destruct b as [|y b].
    + right. exists (String x a). exact (eq_sym Heq).
    + rewrite !string_app_cons in Heq. injection Heq as _ Heq.
      now apply IH in Heq.
Qed.

End StringFacts.

(** ** The matcher *)

Section RegexFacts.

Import JsString Regex.

Lemma orelse_is_Some {A} (a b : option A) :
  is_Some (match a with Some x => Some x | None => b end)
  <-> is_Some a \/ is_Some b.
Proof.
  destruct a as [x|].
  - split; [intros _; left; eauto | intros _; eauto].
  - split; [now right | intros [Ha|Hb]; [now apply is_Some_None in Ha | exact Hb]].
Qed.

(** Whatever the matcher returns was returned by its continuation. *)
Lemma rmatch_passes (r : regex) :
  forall s k x, rmatch r s k = Some x -> exists s2, k s2 = Some x.
Proof.
  induction r as [c|r1 IH1 r2 IH2|r1 IH1 r2 IH2|r1 IH1| |]; intros s k x Hm;
    simpl in Hm.
  - destruct s as [|d s']; [discriminate|].
    destruct (Ascii.eqb c d); [eauto | discriminate].
  - apply IH1 in Hm as [s1 Hm]. now apply IH2 in Hm.
  - destruct (rmatch r1 s k) as [y|] eqn:E1.
    + injection Hm as <-. now apply IH1 in E1.
    + now apply IH2 in Hm.
  - destruct (rmatch r1 s k) as [y|] eqn:E1.
    + injection Hm as <-. now apply IH1 in E1.
    + eauto.
  - eauto.
  - destruct s; [eauto | discriminate].
Qed.

(** An anchor-free pattern matches at the start of [s] exactly when one of
    its words starts [s] and the continuation accepts what follows. *)
Lemma rmatch_words (r : regex) :
  anchor_free r = true ->
  forall s k,
    is_Some (rmatch r s k)
    <-> exists w s2, In w (words r) /\ s = w +:+ s2 /\ is_Some (k s2).
Proof.
  induction r as [c|r1 IH1 r2 IH2|r1 IH1 r2 IH2|r1 IH1| |]; simpl; intros Hfree s k.
  - split.
    + destruct s as [|d s']; [intros Hs; now apply is_Some_None in Hs|].
      destruct (Ascii.eqb_spec c d) as [<-|Hne];
        [|intros Hs; now apply is_Some_None in Hs].
      intros Hk. exists (String c ""), s'. split; [now left|]. split; [reflexivity|exact Hk].
    + intros (w & s2 & [<-|[]] & -> & Hk).
      rewrite string_app_cons, string_app_nil_l, Ascii.eqb_refl. exact Hk.
  - apply andb_true_iff in Hfree as [H1 H2].
    rewrite (IH1 H1). split.
    + intros (w1 & s1 & Hw1 & -> & Hk). apply (IH2 H2) in Hk.
      destruct Hk as (w2 & s2 & Hw2 & -> & Hk).
      exists (w1 +:+ w2), s2. split; [|split].
      * apply in_flat_map. exists w1. split; [exact Hw1|]. now apply in_map.
      * now rewrite string_app_assoc.
      * exact Hk.
    + intros (w & s2 & Hw & -> & Hk).
      apply in_flat_map in Hw as (w1 & Hw1 & Hw).
      apply in_map_iff in Hw as (w2 & <- & Hw2).
      exists w1, (w2 +:+ s2). split; [exact Hw1|]. split.
      * now rewrite string_app_assoc.
      * apply (IH2 H2). now exists w2, s2.
  - apply andb_true_iff in Hfree as [H1 H2].
    rewrite orelse_is_Some, (IH1 H1), (IH2 H2). split.
    + intros [(w & s2 & Hw & Hs & Hk)|(w & s2 & Hw & Hs & Hk)];
        exists w, s2; (split; [apply in_or_app; auto | auto]).
    + intros (w & s2 & Hw & Hs & Hk). apply in_app_or in Hw as [Hw|Hw];
        [left | right]; now exists w, s2.
  - rewrite orelse_is_Some, (IH1 Hfree). split.
    + intros [(w & s2 & Hw & Hs & Hk)|Hk].
      * exists w, s2. split; [apply in_or_app; auto | auto].
      * exists "", s. split; [apply in_or_app; right; now left | auto].
    + intros (w & s2 & Hw & Hs & Hk). apply in_app_or in Hw as [Hw|[<-|[]]].
      * left. now exists w, s2.
      * right. now subst s.
  - split.
    + intros Hk. exists "", s. split; [now left | auto].
    + intros (w & s2 & [<-|[]] & -> & Hk). exact Hk.
  - discriminate.
Qed.

Lemma exec_nil (r : regex) :
  exec r "" = match rmatch r "" Some with
              | Some rest => Some ("", rest)
              | None => None
              end.
Proof. reflexivity. Qed.

Lemma exec_cons (r : regex) (c : ascii) (s : string) :
  exec r (String c s)
  = match rmatch r (String c s) Some with
    | Some rest => Some ("", rest)
    | None => match exec r s with
              | Some (pre, rest) => Some (String c pre, rest)
              | None => None
              end
    end.
Proof. reflexivity. Qed.

(** A pattern of the shape [body$], [body] without anchors. *)
Section Anchored.

Variable body : regex.
Hypothesis body_free : anchor_free body = true.

Let re : regex := RSeq body REnd.

Lemma anchored_rest (s x : string) : rmatch re s Some = Some x -> x = "".
Proof.
  unfold re. simpl. intros Hm. apply rmatch_passes in Hm as [s1 Hm].
  destruct s1; simpl in Hm; [congruence | discriminate].
Qed.

Lemma anchored_is_Some (s : string) :
  is_Some (rmatch re s Some) <-> In s (words body).
Proof.
  unfold re. simpl. rewrite (rmatch_words body body_free). split.
  - intros (w & s2 & Hw & -> & Hk). destruct s2.
    + now rewrite string_app_nil_r.
    + now apply is_Some_None in Hk.
  - intros Hs. exists s, "". rewrite string_app_nil_r. eauto.
Qed.

Lemma anchored_match (s : string) :
  In s (words body) -> rmatch re s Some = Some "".
Proof.
  intros Hs. apply anchored_is_Some in Hs as [x Hx].
  now rewrite Hx, (anchored_rest _ _ Hx).
Qed.

Lemma anchored_no_match (s : string) :
  ~ In s (words body) -> rmatch re s Some = None.
Proof.
  intros Hs. destruct (rmatch re s Some) as [x|] eqn:E; [|reflexivity].
  exfalso. apply Hs, anchored_is_Some. eauto.
Qed.

(** No suffix of [s] is a word: the pattern matches nowhere in [s]. *)
Lemma exec_none (s : string) :
  (forall u, is_suffix u s -> ~ In u (words body)) -> exec re s = None.
Proof.
  induction s as [|c s IH]; intros Hs.
  - rewrite exec_nil.
    now rewrite anchored_no_match by (apply Hs, is_suffix_refl).
  - rewrite exec_cons.
    rewrite anchored_no_match by (apply Hs, is_suffix_refl).
    rewrite IH; [reflexivity|].
    intros u Hu. now apply Hs, is_suffix_tail.
Qed.

(** [w] is a word and a proper suffix of no word: in [p +:+ w] the
    leftmost match is [w] itself. *)
Lemma exec_suffix (p w : string) :
  In w (words body) ->
  (forall w', In w' (words body) -> is_suffix w w' -> w' = w) ->
  exec re (p +:+ w) = Some (p, "").
Proof.
  intros Hw Hmax. induction p as [|c p IH].
  - rewrite string_app_nil_l.
    destruct w; [rewrite exec_nil | rewrite exec_cons];
      now rewrite anchored_match.
  - rewrite string_app_cons, exec_cons.
    rewrite anchored_no_match.
    + now rewrite IH.
    + intros Hin. apply Hmax in Hin.
      * apply (f_equal String.length) in Hin.
        simpl in Hin. rewrite string_app_length in Hin. lia.
      * now exists (String c p).
Qed.

(** The same two facts, with the side conditions as boolean checks. *)
Lemma replace_skip (p v repl : string) :
  clear_of body v = true -> replace (p +:+ v) re repl = p +:+ v.
Proof.
  intros Hc. unfold replace. rewrite exec_none; [reflexivity|].
  intros u [q Hq] Hu.
  unfold clear_of in Hc. rewrite forallb_forall in Hc.
  apply Hc in Hu. apply andb_true_iff in Hu as [H1 H2].
  apply negb_true_iff in H1, H2.
  apply suffix_comparable in Hq as [Hq|Hq].
  - now apply (endsWith_false _ _ H1).
  - now apply (endsWith_false _ _ H2).
Qed.

Lemma replace_suffix (p w repl : string) :
  longest_with body w = true -> replace (p +:+ w) re repl = p +:+ repl.
Proof.
  intros Hl. apply andb_true_iff in Hl as [Hin Hmax].
  apply existsb_exists in Hin as (w0 & Hin & Heq).
  apply String.eqb_eq in Heq. subst w0.
  rewrite forallb_forall in Hmax.
  unfold replace. rewrite exec_suffix.
  - now rewrite string_app_nil_r.
  - exact Hin.
  - intros w' Hw' Hs. specialize (Hmax w' Hw').
    apply endsWith_spec in Hs. rewrite Hs in Hmax. simpl in Hmax.
    now apply String.eqb_eq.
Qed.

End Anchored.

(** Without a match, [replace] returns its input, for any pattern. *)
Lemma replace_no_match (r : regex) (s repl : string) :
  test r s = false -> replace s r repl = s.
Proof.
  unfold test, replace. destruct (exec r s) as [[pre rest]|];
    [discriminate | reflexivity].
Qed.

End RegexFacts.

(** ** The rewrite of the target into the README URL *)

Section RewriteFacts.

Import Regex.

Ltac unfold_reduce :=
  unfold readmeUrlOf, COMPONENT_LOCATIONS_REGEX; cbv zeta; cbn [fold_left].

Ltac skip_pattern :=
  rewrite replace_skip by (vm_compute; reflexivity).

Ltac hit_pattern :=
  rewrite replace_suffix by (vm_compute; reflexivity).

Lemma readmeUrlOf_catalog_info (encoded : bool) (p : string) :
  readmeUrlOf (p +:+ Convention.catalogInfoSuffix encoded) = p +:+ "/README.md".
Proof.
  destruct encoded; unfold Convention.catalogInfoSuffix; unfold_reduce.
  - skip_pattern. hit_pattern. now do 2 skip_pattern.
  - hit_pattern. now do 3 skip_pattern.
Qed.

Lemma readmeUrlOf_components_yaml (encoded : bool) (env p : string) :
  In env Convention.environments ->
  readmeUrlOf (p +:+ Convention.componentsYamlSuffix encoded env)
  = p +:+ "/README.md".
Proof.
  intros Henv. simpl in Henv.
  destruct Henv as [<-|[<-|[<-|[]]]]; destruct encoded;
    unfold Convention.componentsYamlSuffix;
    rewrite ?string_app_cons, ?string_app_nil_l; unfold_reduce;
    do 2 skip_pattern.
  all: try (skip_pattern; hit_pattern; reflexivity).
  all: hit_pattern; skip_pattern; reflexivity.
Qed.

Lemma readmeUrlOf_no_match (t : string) :
  forallb (fun re => negb (test re t)) COMPONENT_LOCATIONS_REGEX = true ->
  readmeUrlOf t = t.
Proof.
  intros Hno. rewrite forallb_forall in Hno.
  assert (Hno' : forall re, In re COMPONENT_LOCATIONS_REGEX -> test re t = false)
    by (intros re Hin; now apply negb_true_iff, Hno).
  clear Hno. rename Hno' into Hno. unfold readmeUrlOf.
  induction COMPONENT_LOCATIONS_REGEX as [|re res IH]; [reflexivity|].
  cbn [fold_left]. rewrite replace_no_match by (apply Hno; now left).
  apply IH. intros re' Hin. apply Hno. now right.
Qed.

End RewriteFacts.

(** ** The README probe *)

Section ProbeFacts.

Context `{CatalogModel}.

Variable entity : Entity.t.
Variable reader : UrlReaderService.

Lemma checkReadmeFile_absent :
  sourceLocationOf entity = None ->
  checkReadmeFile entity reader = ret false.
Proof. intros Hloc. unfold checkReadmeFile. now rewrite Hloc. Qed.

Lemma checkReadmeFile_empty :
  sourceLocationOf entity = Some "" ->
  checkReadmeFile entity reader = ret false.
Proof. intros Hloc. unfold checkReadmeFile. now rewrite Hloc. Qed.

Section Present.

Variable sourceLocation : string.
Hypothesis Hloc : sourceLocationOf entity = Some sourceLocation.
Hypothesis Hne : sourceLocation <> "".

Lemma checkReadmeFile_parse_throws (e : Exn) :
  parseLocationRef sourceLocation = Throws e ->
  checkReadmeFile entity reader
  = ([LogInfo ("-->>> " +:+ exn_text e)], Returns false).
Proof.
  intros Hparse. unfold checkReadmeFile. rewrite Hloc.
  apply String.eqb_neq in Hne. rewrite Hne, Hparse. reflexivity.
Qed.

Section Parsed.

Variable ref : LocationRef.
Hypothesis Hparse : parseLocationRef sourceLocation = Returns ref.

Let readmeUrl : string := readmeUrlOf (target ref).

Lemma checkReadmeFile_search_throws (e : Exn) :
  search reader readmeUrl = Throws e ->
  checkReadmeFile entity reader
  = ([LogInfo ("->>> searching " +:+ readmeUrl); Search readmeUrl;
      LogInfo ("-->>> " +:+ exn_text e)],
     Returns false).
Proof.
  intros Hsearch. unfold checkReadmeFile. rewrite Hloc.
  apply String.eqb_neq in Hne. rewrite Hne, Hparse.
  unfold bind, liftO, emit, try_catch. fold readmeUrl.
  rewrite Hsearch. reflexivity.
Qed.

Lemma checkReadmeFile_search_returns (fs : list SearchResponseFile) :
  search reader readmeUrl = Returns {| files := Some fs |} ->
  checkReadmeFile entity reader
  = ([LogInfo ("->>> searching " +:+ readmeUrl); Search readmeUrl;
      LogInfo ("->>> " +:+ number_to_string (length fs)
                 +:+ ", " +:+ readmeUrl)],
     Returns (Nat.eqb (length fs) 1)).
Proof.
  intros Hsearch. unfold checkReadmeFile. rewrite Hloc.
  apply String.eqb_neq in Hne. rewrite Hne, Hparse.
  unfold bind, liftO, emit, try_catch. fold readmeUrl.
  rewrite Hsearch. reflexivity.
Qed.

Lemma checkReadmeFile_search_no_files :
  search reader readmeUrl = Returns {| files := None |} ->
  checkReadmeFile entity reader
  = ([LogInfo ("->>> searching " +:+ readmeUrl); Search readmeUrl;
      LogInfo ("->>> undefined, " +:+ readmeUrl);
      LogInfo ("-->>> " +:+ exn_text TypeError_length)],
     Returns false).
Proof.
  intros Hsearch. unfold checkReadmeFile. rewrite Hloc.
  apply String.eqb_neq in Hne. rewrite Hne, Hparse.
  unfold bind, liftO, emit, try_catch. fold readmeUrl.
  rewrite Hsearch. reflexivity.
Qed.

(** Once the location has parsed, the search is called, once, with the
    rewritten target. *)
Lemma checkReadmeFile_search_calls :
  search_calls (trace (checkReadmeFile entity reader)) = [readmeUrl].
Proof.
  destruct (search reader readmeUrl) as [[[fs|]]|e] eqn:Hsearch.
  - now rewrite (checkReadmeFile_search_returns _ Hsearch).
  - now rewrite (checkReadmeFile_search_no_files Hsearch).
  - now rewrite (checkReadmeFile_search_throws _ Hsearch).
Qed.

End Parsed.

End Present.

(** The probe returns, whatever the collaborators do. *)
Lemma checkReadmeFile_returns :
  exists b, outcome (checkReadmeFile entity reader) = Returns b.
Proof.
  destruct (sourceLocationOf entity) as [loc|] eqn:Hloc;
    [|rewrite (checkReadmeFile_absent Hloc); now exists false].
  destruct (String.eqb_spec loc "") as [->|Hne];
    [rewrite (checkReadmeFile_empty Hloc); now exists false|].
  destruct (parseLocationRef loc) as [ref|e] eqn:Hparse;
    [|rewrite (checkReadmeFile_parse_throws _ Hloc Hne _ Hparse); now exists false].
  destruct (search reader (readmeUrlOf (target ref))) as [[[fs|]]|e] eqn:Hsearch.
  - rewrite (checkReadmeFile_search_returns _ Hloc Hne _ Hparse _ Hsearch). eauto.
  - rewrite (checkReadmeFile_search_no_files _ Hloc Hne _ Hparse Hsearch). eauto.
  - rewrite (checkReadmeFile_search_throws _ Hloc Hne _ Hparse _ Hsearch). eauto.
Qed.

End ProbeFacts.

(** ** The handler *)

Section HandlerFacts.

Context {Discovery Credentials : Type}.
Context `{CatalogModel} `{CatalogClientApi Discovery}.

(** The value of [spec?.definition && spec?.definition.length > 0]: the
    left operand itself when it is falsy, [true] otherwise. It never
    throws, because [.length] is only read of a non-empty string. *)
Lemma hasDefinition_value (entity : Entity.t) :
  js_and (specDefinition entity) (specDefinitionNonEmpty entity)
  = Returns (match Entity.spec entity with
             | Some {| Entity.definition := Some EmptyString |} => JsValue.Str ""
             | Some {| Entity.definition := Some (String _ _) |} => JsValue.Bool true
             | _ => JsValue.Undefined
             end).
Proof.
  unfold js_and, specDefinition, specDefinitionNonEmpty.
  destruct (Entity.spec entity) as [[[[|c d]|]]|]; reflexivity.
Qed.

Lemma entityFact_run (reader : UrlReaderService) (entity : Entity.t) :
  exists v b,
    js_and (specDefinition entity) (specDefinitionNonEmpty entity) = Returns v
    /\ outcome (checkReadmeFile entity reader) = Returns b
    /\ entityFact reader entity
       = (trace (checkReadmeFile entity reader),
          Returns
            {| Fact.entity :=
                 {| Fact.namespace := Entity.namespace (Entity.metadata entity);
                    Fact.kind := Entity.kind entity;
                    Fact.name := Entity.name (Entity.metadata entity) |};
               Fact.facts := {| Fact.hasDefinition := v; Fact.hasReadme := b |} |}).
Proof.
  destruct (checkReadmeFile_returns entity reader) as [b Hb].
  eexists _, b. split; [apply hasDefinition_value|]. split; [exact Hb|].
  unfold entityFact. rewrite hasDefinition_value.
  destruct (checkReadmeFile entity reader) as [t o]. simpl in Hb. subst o.
  unfold bind, liftO, ret, trace. simpl. now rewrite app_nil_r.
Qed.

Lemma entityFact_returns (reader : UrlReaderService) (entity : Entity.t) :
  exists r, outcome (entityFact reader entity) = Returns r.
Proof.
  destruct (entityFact_run reader entity) as (v & b & _ & _ & ->). eauto.
Qed.

(** When every promise fulfils, [Promise.all] fulfils with one value per
    promise, each in the slot of its promise. *)
Lemma promise_all_map_returns {A B} (f : A -> M B) (xs : list A) :
  (forall x, exists b, outcome (f x) = Returns b) ->
  exists l,
    outcome (promise_all (map f xs)) = Returns l
    /\ length l = length xs
    /\ forall i x, nth_error xs i = Some x ->
                   exists b, nth_error l i = Some b /\ outcome (f x) = Returns b.
Proof.
  intros Hf. induction xs as [|x xs (l & Hl & Hlen & Hnth)].
  - exists []. split; [reflexivity|]. split; [reflexivity|].
    intros [|i] x Hx; discriminate Hx.
  - destruct (Hf x) as [b Hb]. exists (b :: l).
    cbn [map promise_all].
    destruct (f x) as [t1 o1] eqn:Efx.
    destruct (promise_all (map f xs)) as [t2 o2].
    simpl in Hb, Hl. subst o1 o2.
    split; [reflexivity|]. split; [simpl; now rewrite Hlen|].
    intros [|i] y Hy; simpl in Hy.
    + injection Hy as <-. exists b. now rewrite Efx.
    + now apply Hnth.
Qed.

(** With credentials, a token and a catalog answer, the handler is the
    [Promise.all] over the listed entities. *)
Lemma handler_run (ctx : FactRetrieverContext Discovery Credentials)
  (credentials : Credentials) (tokenResult : TokenResult)
  (entities : GetEntitiesResponse) :
  getOwnServiceCredentials (auth ctx) = Returns credentials ->
  getPluginRequestToken (auth ctx)
    {| onBehalfOf := credentials; targetPluginId := "catalog" |}
  = Returns tokenResult ->
  getEntities (discovery ctx) {| filter := {| filter_kind := ["API"] |} |}
    tokenResult
  = Returns entities ->
  handler ctx = promise_all (map (entityFact (urlReader ctx)) (items entities)).
Proof.
  intros Hc Ht He. unfold handler. rewrite Hc. unfold bind at 1, liftO at 1.
  rewrite Ht. unfold bind at 1, liftO at 1. rewrite He.
  unfold bind, liftO.
  now destruct (promise_all (map (entityFact (urlReader ctx)) (items entities))).
Qed.

End HandlerFacts.

Section ProbeProperties.

Context `{CatalogModel}.

(** Case analysis on one run of the probe: annotation absent, empty,
    unparsable; search throwing, returning files, returning none. *)
Ltac probe_cases entity reader :=
  let loc := fresh "loc" in
  let Hloc := fresh "Hloc" in
  let Hne := fresh "Hne" in
  let Hparse := fresh "Hparse" in
  let Hsearch := fresh "Hsearch" in
  destruct (sourceLocationOf entity) as [loc|] eqn:Hloc;
  [ destruct (String.eqb_spec loc "") as [->|Hne];
    [ rewrite (checkReadmeFile_empty entity reader Hloc)
    | destruct (parseLocationRef loc) as [?ref|?e] eqn:Hparse;
      [ destruct (search reader (readmeUrlOf (target ref)))
          as [[[?fs|]]|?e] eqn:Hsearch;
        [ rewrite (checkReadmeFile_search_returns entity reader _ Hloc Hne _ Hparse _ Hsearch)
        | rewrite (checkReadmeFile_search_no_files entity reader _ Hloc Hne _ Hparse Hsearch)
        | rewrite (checkReadmeFile_search_throws entity reader _ Hloc Hne _ Hparse _ Hsearch) ]
      | rewrite (checkReadmeFile_parse_throws entity reader _ Hloc Hne _ Hparse) ] ]
  | rewrite (checkReadmeFile_absent entity reader Hloc) ].

(** C2. [checkReadmeFile] returns [true] exactly when the search it calls
    returns a file list of length 1; when the search returns a list of any
    other length (none, or more than one file) it returns [false]. *)
Theorem checkReadmeFile_true_iff_one_file
  (entity : Entity.t) (reader : UrlReaderService) :
  (outcome (checkReadmeFile entity reader) = Returns true
   <-> exists url fs,
        In url (search_calls (trace (checkReadmeFile entity reader)))
        /\ search reader url = Returns {| files := Some fs |}
        /\ length fs = 1)
  /\ (forall url fs,
        In url (search_calls (trace (checkReadmeFile entity reader))) ->
        search reader url = Returns {| files := Some fs |} ->
        length fs <> 1 ->
        outcome (checkReadmeFile entity reader) = Returns false).
Proof.
  assert (Hnocall :
    forall P : string -> list SearchResponseFile -> Prop,
      (Returns false = Returns true
       <-> exists u fs, In u [] /\ P u fs)
      /\ (forall u fs, In u [] -> search reader u = Returns {| files := Some fs |} ->
                      length fs <> 1 -> Returns false = Returns false)).
  { intros P. split; [split|].
    - intros Hf. discriminate Hf.
    - intros (u & fs & [] & _).
    - reflexivity. }
  probe_cases entity reader; cbn [outcome trace fst snd search_calls].
  - apply (Hnocall (fun u fs =>
             search reader u = Returns {| files := Some fs |} /\ length fs = 1)).
  - split; [split|].
    + intros Ht. injection Ht as Ht. apply Nat.eqb_eq in Ht.
      exists (readmeUrlOf (target ref)), fs. split; [now left | now split].
    + intros (u & fs' & [<-|[]] & Hs & Hlen).
      rewrite Hsearch in Hs. injection Hs as <-.
      f_equal. now apply Nat.eqb_eq.
    + intros u fs' [<-|[]] Hs Hlen.
      rewrite Hsearch in Hs. injection Hs as <-.
      f_equal. now apply Nat.eqb_neq.
  - split; [split|].
    + intros Hf. discriminate Hf.
    + intros (u & fs' & [<-|[]] & Hs & _). rewrite Hsearch in Hs. discriminate Hs.
    + reflexivity.
  - split; [split|].
    + intros Hf. discriminate Hf.
    + intros (u & fs' & [<-|[]] & Hs & _). rewrite Hsearch in Hs. discriminate Hs.
    + reflexivity.
  - apply (Hnocall (fun u fs =>
             search reader u = Returns {| files := Some fs |} /\ length fs = 1)).
  - apply (Hnocall (fun u fs =>
             search reader u = Returns {| files := Some fs |} /\ length fs = 1)).
Qed.

(** C3. [checkReadmeFile] never throws: it always returns a boolean. An
    exception thrown by the location parser or by the search is caught,
    logged as [-->>> error], and turned into [false]; so the fan-out over a
    list of entities yields one record per entity, whatever the parser and
    the reader do for any of them. *)
Theorem checkReadmeFile_never_throws
  (entity : Entity.t) (reader : UrlReaderService) :
  (exists b, outcome (checkReadmeFile entity reader) = Returns b)
  /\ (forall loc e,
        sourceLocationOf entity = Some loc ->
        String.eqb loc "" = false ->
        parseLocationRef loc = Throws e ->
        outcome (checkReadmeFile entity reader) = Returns false
        /\ In ("-->>> " +:+ exn_text e)
             (log_lines (trace (checkReadmeFile entity reader))))
  /\ (forall loc ref e,
        sourceLocationOf entity = Some loc ->
        String.eqb loc "" = false ->
        parseLocationRef loc = Returns ref ->
        search reader (readmeUrlOf (target ref)) = Throws e ->
        outcome (checkReadmeFile entity reader) = Returns false
        /\ In ("-->>> " +:+ exn_text e)
             (log_lines (trace (checkReadmeFile entity reader))))
  /\ (forall entities,
        exists records,
          outcome (promise_all (map (entityFact reader) entities))
          = Returns records
          /\ length records = length entities).
Proof.
  split; [apply checkReadmeFile_returns|]. split; [|split].
  - intros loc e Hloc Hne Hparse. apply String.eqb_neq in Hne.
    rewrite (checkReadmeFile_parse_throws entity reader _ Hloc Hne _ Hparse).
    split; [reflexivity | now left].
  - intros loc ref e Hloc Hne Hparse Hsearch. apply String.eqb_neq in Hne.
    rewrite (checkReadmeFile_search_throws entity reader _ Hloc Hne _ Hparse _ Hsearch).
    split; [reflexivity | right; now left].
  - intros entities.
    destruct (promise_all_map_returns (entityFact reader) entities
                (entityFact_returns reader)) as (l & Hl & Hlen & _).
    now exists l.
Qed.

(** C5. Without a source-location annotation, [checkReadmeFile] returns
    [false] at once: no search call is made (and nothing is logged). *)
Theorem checkReadmeFile_without_annotation
  (entity : Entity.t) (reader : UrlReaderService) :
  sourceLocationOf entity = None ->
  outcome (checkReadmeFile entity reader) = Returns false
  /\ search_calls (trace (checkReadmeFile entity reader)) = []
  /\ trace (checkReadmeFile entity reader) = [].
Proof.
  intros Hloc. now rewrite (checkReadmeFile_absent entity reader Hloc).
Qed.

(** An entity whose source-location annotation is there, passes the guard
    [!sourceLocation] (it is not the empty string) and parses to [ref]. *)
Section Parsed.

Variable entity : Entity.t.
Variable reader : UrlReaderService.
Variable sourceLocation : string.
Variable ref : LocationRef.
Hypothesis Hloc : sourceLocationOf entity = Some sourceLocation.
Hypothesis Hne : String.eqb sourceLocation "" = false.
Hypothesis Hparse : parseLocationRef sourceLocation = Returns ref.

Lemma searched_url :
  search_calls (trace (checkReadmeFile entity reader))
  = [readmeUrlOf (target ref)].
Proof.
  apply String.eqb_neq in Hne.
  exact (checkReadmeFile_search_calls entity reader _ Hloc Hne _ Hparse).
Qed.

(** C6. For an entity whose annotation is non-empty and parses: when the
    parsed target ends in [/catalog-info.yaml], or in
    [%2Fcatalog-info.yaml], the one URL given to the search is the target
    with that suffix replaced by [/README.md]. *)
Theorem search_url_for_catalog_info (encoded : bool) (p : string) :
  target ref = p +:+ Convention.catalogInfoSuffix encoded ->
  search_calls (trace (checkReadmeFile entity reader)) = [p +:+ "/README.md"].
Proof.
  intros Ht. now rewrite searched_url, Ht, readmeUrlOf_catalog_info.
Qed.

(** C7. For an entity whose annotation is non-empty and parses: when the
    parsed target ends in [/.devhub/<env>/components.yaml] with [<env>] one
    of [dev], [int], [prod], or in the same suffix with its slashes
    percent-encoded, the one URL given to the search is the target with
    that whole suffix replaced by [/README.md]. *)
Theorem search_url_for_components_yaml (encoded : bool) (env p : string) :
  In env Convention.environments ->
  target ref = p +:+ Convention.componentsYamlSuffix encoded env ->
  search_calls (trace (checkReadmeFile entity reader)) = [p +:+ "/README.md"].
Proof.
  intros Henv Ht.
  now rewrite searched_url, Ht, readmeUrlOf_components_yaml.
Qed.

(** C10. For an entity whose annotation is non-empty and parses: when none
    of the four patterns matches the parsed target, the search is still
    called, once, with the target as it is. *)
Theorem search_url_without_match :
  forallb (fun re => negb (Regex.test re (target ref)))
    COMPONENT_LOCATIONS_REGEX = true ->
  search_calls (trace (checkReadmeFile entity reader)) = [target ref].
Proof.
  intros Hno. now rewrite searched_url, readmeUrlOf_no_match.
Qed.

End Parsed.

End ProbeProperties.

Section HandlerProperties.

Context {Discovery Credentials : Type}.
Context `{CatalogModel} `{JsonFc} `{CatalogClientApi Discovery}.

Variable ctx : FactRetrieverContext Discovery Credentials.

(** C8. When the catalog has answered with a list of entities, the handler
    returns a list of fact records of the same length, and the record at
    each index is the one computed from the entity at that index: it
    carries that entity's namespace, kind and name. *)
Theorem handler_records_follow_entities
  (credentials : Credentials) (tokenResult : TokenResult)
  (entities : GetEntitiesResponse) :
  getOwnServiceCredentials (auth ctx) = Returns credentials ->
  getPluginRequestToken (auth ctx)
    {| onBehalfOf := credentials; targetPluginId := "catalog" |}
  = Returns tokenResult ->
  getEntities (discovery ctx) {| filter := {| filter_kind := ["API"] |} |}
    tokenResult
  = Returns entities ->
  exists records,
    outcome (handler ctx) = Returns records
    /\ length records = length (items entities)
    /\ forall i entity,
         nth_error (items entities) i = Some entity ->
         exists record,
           nth_error records i = Some record
           /\ outcome (entityFact (urlReader ctx) entity) = Returns record
           /\ Fact.entity record
              = {| Fact.namespace := Entity.namespace (Entity.metadata entity);
                   Fact.kind := Entity.kind entity;
                   Fact.name := Entity.name (Entity.metadata entity) |}.
Proof.
  intros Hc Ht He. rewrite (handler_run ctx _ _ _ Hc Ht He).
  destruct (promise_all_map_returns (entityFact (urlReader ctx)) (items entities)
              (entityFact_returns (urlReader ctx))) as (l & Hl & Hlen & Hnth).
  exists l. split; [exact Hl|]. split; [exact Hlen|].
  intros i entity Hi. destruct (Hnth i entity Hi) as (record & Hr & Hrec).
  exists record. split; [exact Hr|]. split; [exact Hrec|].
  destruct (entityFact_run (urlReader ctx) entity) as (v & b & _ & _ & Hrun).
  rewrite Hrun in Hrec. simpl in Hrec. now injection Hrec as <-.
Qed.

(** C9. The handler throws exactly when acquiring the token (the service
    credentials, then the plugin request token) or listing the entities
    throws, and it throws that very error; nothing has been computed for
    any entity then, and no fact records are returned. *)
Theorem handler_throws_iff (e : Exn) :
  (outcome (handler ctx) = Throws e
   <-> getOwnServiceCredentials (auth ctx) = Throws e
       \/ (exists credentials,
             getOwnServiceCredentials (auth ctx) = Returns credentials
             /\ getPluginRequestToken (auth ctx)
                  {| onBehalfOf := credentials; targetPluginId := "catalog" |}
                = Throws e)
       \/ (exists credentials tokenResult,
             getOwnServiceCredentials (auth ctx) = Returns credentials
             /\ getPluginRequestToken (auth ctx)
                  {| onBehalfOf := credentials; targetPluginId := "catalog" |}
                = Returns tokenResult
             /\ getEntities (discovery ctx)
                  {| filter := {| filter_kind := ["API"] |} |} tokenResult
                = Throws e))
  /\ (outcome (handler ctx) = Throws e ->
      trace (handler ctx) = []
      /\ forall records, outcome (handler ctx) <> Returns records).
Proof.
  destruct (getOwnServiceCredentials (auth ctx)) as [c|e1] eqn:Hc.
  - destruct (getPluginRequestToken (auth ctx)
                {| onBehalfOf := c; targetPluginId := "catalog" |})
      as [tok|e2] eqn:Ht.
    + destruct (getEntities (discovery ctx)
                  {| filter := {| filter_kind := ["API"] |} |} tok)
        as [es|e3] eqn:He.
      * rewrite (handler_run ctx _ _ _ Hc Ht He).
        destruct (promise_all_map_returns (entityFact (urlReader ctx)) (items es)
                    (entityFact_returns (urlReader ctx))) as (l & Hl & _).
        rewrite Hl. split; [split|].
        -- intros Hf. discriminate Hf.
        -- intros [Hf|[(c' & Hc' & Hf)|(c' & tok' & Hc' & Ht' & Hf)]].
           ++ discriminate Hf.
           ++ injection Hc' as <-. rewrite Ht in Hf. discriminate Hf.
           ++ injection Hc' as <-. rewrite Ht in Ht'. injection Ht' as <-.
              rewrite He in Hf. discriminate Hf.
        -- intros Hf. discriminate Hf.
      * assert (Hrun : handler ctx = ([], Throws e3)).
        { unfold handler. rewrite Hc. unfold bind at 1, liftO at 1.
          rewrite Ht. unfold bind at 1, liftO at 1. now rewrite He. }
        rewrite Hrun. simpl. split; [split|].
        -- intros Hf. injection Hf as <-. right. right. now exists c, tok.
        -- intros [Hf|[(c' & Hc' & Hf)|(c' & tok' & Hc' & Ht' & Hf)]].
           ++ discriminate Hf.
           ++ injection Hc' as <-. rewrite Ht in Hf. discriminate Hf.
           ++ injection Hc' as <-. rewrite Ht in Ht'. injection Ht' as <-.
              rewrite He in Hf. now injection Hf as <-.
        -- intros _. split; [reflexivity|]. intros records Hf. discriminate Hf.
    + assert (Hrun : handler ctx = ([], Throws e2)).
      { unfold handler. rewrite Hc. unfold bind at 1, liftO at 1.
        now rewrite Ht. }
      rewrite Hrun. simpl. split; [split|].
      * intros Hf. injection Hf as <-. right. left. now exists c.
      * intros [Hf|[(c' & Hc' & Hf)|(c' & tok' & Hc' & Ht' & Hf)]].
        -- discriminate Hf.
        -- injection Hc' as <-. rewrite Ht in Hf. now injection Hf as <-.
        -- injection Hc' as <-. rewrite Ht in Ht'. discriminate Ht'.
      * intros _. split; [reflexivity|]. intros records Hf. discriminate Hf.
  - assert (Hrun : handler ctx = ([], Throws e1)).
    { unfold handler. now rewrite Hc. }
    rewrite Hrun. simpl. split; [split|].
    + intros Hf. injection Hf as <-. now left.
    + intros [Hf|[(c' & Hc' & Hf)|(c' & tok' & Hc' & Ht' & Hf)]].
      * now injection Hf as <-.
      * discriminate Hc'.
      * discriminate Hc'.
    + intros _. split; [reflexivity|]. intros records Hf. discriminate Hf.
Qed.

(** C4, as the module has it: one fact-retriever descriptor is exported,
    [apiDefinitionFactRetriever], with identifier, version [0.0.1] and a
    schema of [hasDefinition] and [hasReadme]; and one list of check
    descriptors, [groupOwnerCheck] and [apiDefinitionCheck]. The
    [entityOwnershipFactRetriever] that [groupOwnerCheck] names is not
    defined here. *)
Theorem module_exports_one_fact_retriever :
  map Retriever.id (exported_fact_retrievers (Credentials := Credentials))
  = ["apiDefinitionFactRetriever"]
  /\ map Retriever.version (exported_fact_retrievers (Credentials := Credentials))
     = ["0.0.1"]
  /\ map (fun r => map fst (Retriever.schema r))
       (exported_fact_retrievers (Credentials := Credentials))
     = [["hasDefinition"; "hasReadme"]]
  /\ map (map Check.id) (exported_check_lists (Credentials := Credentials))
     = [["groupOwnerCheck"; "apiDefinitionCheck"]]
  /\ map (map Check.factIds) (exported_check_lists (Credentials := Credentials))
     = [[["entityOwnershipFactRetriever"]; ["apiDefinitionFactRetriever"]]].
Proof. repeat split. Qed.

End HandlerProperties.

(** ** Concrete runs *)

Section Runs.

Local Abbreviation model := Sample.catalogModel.
Local Abbreviation probe := (@checkReadmeFile Sample.catalogModel).
Local Abbreviation run es reader :=
  (@handler unit unit Sample.catalogModel (Sample.catalogOf es) (Sample.ctx reader)).

(** C1, at three entities: with the empty [definition] the fact
    [hasDefinition] is the empty string, and without a [spec] it is
    [undefined]; neither is the boolean [false] that the schema of the
    retriever declares. With a non-empty [definition] it is [true]. *)
Theorem hasDefinition_falsy_but_not_false :
  exists r1 r2 r3,
    outcome (run [Sample.billing; Sample.bare; Sample.orders]
               (Sample.readerFinding 1))
    = Returns [r1; r2; r3]
    /\ Fact.hasDefinition (Fact.facts r1) = JsValue.Str ""
    /\ Fact.hasDefinition (Fact.facts r2) = JsValue.Undefined
    /\ Fact.hasDefinition (Fact.facts r3) = JsValue.Bool true
    /\ ~ JsValue.is_bool false (Fact.hasDefinition (Fact.facts r1))
    /\ ~ JsValue.is_bool false (Fact.hasDefinition (Fact.facts r2)).
Proof.
  do 3 eexists. split; [vm_compute; reflexivity|].
  repeat split; intros Hf; discriminate Hf.
Qed.

(** C4, as stated, fails: the module does not export two fact-retriever
    descriptors. *)
Lemma module_exports_not_two_fact_retrievers :
  ~ (length (@exported_fact_retrievers unit unit Sample.catalogModel
               Sample.jsonFc (Sample.catalogOf [])) = 2
     /\ length (@exported_check_lists unit unit Sample.catalogModel
                  Sample.jsonFc (Sample.catalogOf [])) = 1).
Proof. intros [Hf _]. discriminate Hf. Qed.

Lemma checkReadmeFile_true_iff_one_file_witness :
  outcome (probe Sample.orders (Sample.readerFinding 1)) = Returns true
  /\ outcome (probe Sample.orders (Sample.readerFinding 0)) = Returns false
  /\ outcome (probe Sample.orders (Sample.readerFinding 2)) = Returns false.
Proof.
  split; [|split].
  - apply (proj1 (@checkReadmeFile_true_iff_one_file model Sample.orders
                    (Sample.readerFinding 1))).
    exists "https://git.example/acme/orders/blob/main/README.md".
    eexists. split; [vm_compute; left; reflexivity|].
    split; [vm_compute; reflexivity | reflexivity].
  - apply (proj2 (@checkReadmeFile_true_iff_one_file model Sample.orders
                    (Sample.readerFinding 0))
             "https://git.example/acme/orders/blob/main/README.md" []).
    + vm_compute. left. reflexivity.
    + vm_compute. reflexivity.
    + simpl. lia.
  - apply (proj2 (@checkReadmeFile_true_iff_one_file model Sample.orders
                    (Sample.readerFinding 2))
             "https://git.example/acme/orders/blob/main/README.md"
             (repeat {| url := "https://git.example/acme/orders/blob/main/README.md" |} 2)).
    + vm_compute. left. reflexivity.
    + vm_compute. reflexivity.
    + simpl. lia.
Defined.

Lemma checkReadmeFile_never_throws_witness :
  outcome (probe Sample.unparsable (Sample.readerFinding 1)) = Returns false
  /\ outcome (probe Sample.orders Sample.readerDown) = Returns false.
Proof.
  split.
  - apply (proj1 (proj2 (@checkReadmeFile_never_throws model Sample.unparsable
                           (Sample.readerFinding 1)))
             "no-colon-in-here"
             {| exn_text := "TypeError: Unable to parse location ref" |}).
    + vm_compute. reflexivity.
    + reflexivity.
    + reflexivity.
  - apply (proj1 (proj2 (proj2 (@checkReadmeFile_never_throws model Sample.orders
                                  Sample.readerDown)))
             "url:https://git.example/acme/orders/blob/main/catalog-info.yaml"
             {| type := "url";
                target := "https://git.example/acme/orders/blob/main/catalog-info.yaml" |}
             {| exn_text := "Error: not found" |}).
    + vm_compute. reflexivity.
    + reflexivity.
    + reflexivity.
    + reflexivity.
Defined.

Lemma checkReadmeFile_without_annotation_witness :
  @sourceLocationOf model Sample.unlocated = None
  /\ outcome (probe Sample.unlocated (Sample.readerFinding 1)) = Returns false
  /\ search_calls (trace (probe Sample.unlocated (Sample.readerFinding 1))) = [].
Proof.
  split; [reflexivity|].
  destruct (@checkReadmeFile_without_annotation model Sample.unlocated
              (Sample.readerFinding 1) eq_refl) as (Ho & Hs & _).
  split; [exact Ho | exact Hs].
Defined.

Lemma search_url_for_catalog_info_witness :
  search_calls (trace (probe Sample.orders (Sample.readerFinding 1)))
  = ["https://git.example/acme/orders/blob/main/README.md"]
  /\ search_calls (trace (probe Sample.ordersEncoded Sample.readerDown))
     = ["https://git.example/acme/orders/blob/main/README.md"].
Proof.
  split.
  - apply (@search_url_for_catalog_info model Sample.orders (Sample.readerFinding 1)
             "url:https://git.example/acme/orders/blob/main/catalog-info.yaml"
             {| type := "url";
                target := "https://git.example/acme/orders/blob/main/catalog-info.yaml" |}
             ltac:(vm_compute; reflexivity) eq_refl eq_refl
             false "https://git.example/acme/orders/blob/main").
    reflexivity.
  - apply (@search_url_for_catalog_info model Sample.ordersEncoded Sample.readerDown
             "url:https://git.example/acme/orders/blob/main%2Fcatalog-info.yaml"
             {| type := "url";
                target := "https://git.example/acme/orders/blob/main%2Fcatalog-info.yaml" |}
             ltac:(vm_compute; reflexivity) eq_refl eq_refl
             true "https://git.example/acme/orders/blob/main").
    reflexivity.
Defined.

Lemma search_url_for_components_yaml_witness :
  search_calls (trace (probe Sample.billing (Sample.readerFinding 1)))
  = ["https://git.example/acme/billing/README.md"]
  /\ search_calls (trace (probe Sample.billingEncoded (Sample.readerFinding 1)))
     = ["https://git.example/acme/billing/README.md"].
Proof.
  split.
  - apply (@search_url_for_components_yaml model Sample.billing (Sample.readerFinding 1)
             "url:https://git.example/acme/billing/.devhub/prod/components.yaml"
             {| type := "url";
                target := "https://git.example/acme/billing/.devhub/prod/components.yaml" |}
             ltac:(vm_compute; reflexivity) eq_refl eq_refl
             false "prod" "https://git.example/acme/billing").
    + simpl. auto.
    + reflexivity.
  - apply (@search_url_for_components_yaml model Sample.billingEncoded
             (Sample.readerFinding 1)
             "url:https://git.example/acme/billing%2F.devhub%2Fint%2Fcomponents.yaml"
             {| type := "url";
                target := "https://git.example/acme/billing%2F.devhub%2Fint%2Fcomponents.yaml" |}
             ltac:(vm_compute; reflexivity) eq_refl eq_refl
             true "int" "https://git.example/acme/billing").
    + simpl. auto.
    + reflexivity.
Defined.

Lemma search_url_without_match_witness :
  search_calls (trace (probe Sample.legacy (Sample.readerFinding 1)))
  = ["https://git.example/acme/legacy/service.yaml"].
Proof.
  apply (@search_url_without_match model Sample.legacy (Sample.readerFinding 1)
           "url:https://git.example/acme/legacy/service.yaml"
           {| type := "url";
              target := "https://git.example/acme/legacy/service.yaml" |}
           ltac:(vm_compute; reflexivity) eq_refl eq_refl).
  vm_compute. reflexivity.
Defined.

Lemma handler_records_follow_entities_witness :
  exists records,
    outcome (run [Sample.orders; Sample.unparsable; Sample.legacy] Sample.readerDown)
    = Returns records
    /\ length records = 3
    /\ map (fun r => Fact.name (Fact.entity r)) records
       = ["orders"; "unparsable"; "legacy"].
Proof.
  destruct (@handler_records_follow_entities unit unit Sample.catalogModel
              (Sample.catalogOf [Sample.orders; Sample.unparsable; Sample.legacy])
              (Sample.ctx Sample.readerDown) tt {| token := "t0" |}
              {| items := [Sample.orders; Sample.unparsable; Sample.legacy] |}
              eq_refl eq_refl eq_refl)
    as (records & Hout & Hlen & Hnth).
  exists records. split; [exact Hout|]. split; [exact Hlen|].
  destruct (Hnth 0 Sample.orders eq_refl) as (r0 & H0 & _ & E0).
  destruct (Hnth 1 Sample.unparsable eq_refl) as (r1 & H1 & _ & E1).
  destruct (Hnth 2 Sample.legacy eq_refl) as (r2 & H2 & _ & E2).
  destruct records as [|x0 [|x1 [|x2 [|x3 rest]]]]; simpl in Hlen; try lia.
  simpl in H0, H1, H2.
  injection H0 as ->. injection H1 as ->. injection H2 as ->.
  simpl. now rewrite E0, E1, E2.
Defined.

Lemma handler_throws_iff_witness :
  outcome (@handler unit unit Sample.catalogModel Sample.catalogDown
             (Sample.ctx (Sample.readerFinding 1)))
  = Throws {| exn_text := "Error: catalog down" |}.
Proof.
  apply (proj1 (@handler_throws_iff unit unit Sample.catalogModel Sample.catalogDown
                  (Sample.ctx (Sample.readerFinding 1))
                  {| exn_text := "Error: catalog down" |})).
  right. right. exists tt, {| token := "t0" |}.
  split; [reflexivity|]. split; reflexivity.
Defined.

End Runs.

(** ** The four patterns as sets of suffixes *)

Section PatternLanguage.

Import JsString Regex.

Section AnchoredExec.

Variable body : regex.
Hypothesis body_free : anchor_free body = true.

Let re : regex := RSeq body REnd.

(** A match of [body$] ends the input, and what it matched is a word. *)
Lemma exec_anchored_inv (s pre rest : string) :
  exec re s = Some (pre, rest) ->
  rest = "" /\ exists w, In w (words body) /\ s = pre +:+ w.
Proof.
  revert pre. induction s as [|c s IH]; intros pre.
  - rewrite exec_nil. destruct (rmatch re "" Some) as [x|] eqn:E; [|discriminate].
    intros Hx. injection Hx as <- <-.
    split; [exact (anchored_rest body _ _ E)|].
    exists "". split; [|reflexivity].
    apply (anchored_is_Some body body_free). fold re. rewrite E. eauto.
  - rewrite exec_cons.
    destruct (rmatch re (String c s) Some) as [x|] eqn:E.
    + intros Hx. injection Hx as <- <-.
      split; [exact (anchored_rest body _ _ E)|].
      exists (String c s). split; [|reflexivity].
      apply (anchored_is_Some body body_free). fold re. rewrite E. eauto.
    + destruct (exec re s) as [[pre' rest']|] eqn:E'; [|discriminate].
      intros Hx. injection Hx as <- <-.
      destruct (IH pre' eq_refl) as (Hrest & w & Hw & ->).
      split; [exact Hrest|]. exists w. split; [exact Hw|].
      now rewrite string_app_cons.
Qed.

Lemma exec_anchored_none_inv (s u : string) :
  exec re s = None -> is_suffix u s -> ~ In u (words body).
Proof.
  induction s as [|c s IH].
  - rewrite exec_nil. destruct (rmatch re "" Some) as [x|] eqn:E; [discriminate|].
    intros _ [q Hq] Hu. destruct q; [|now rewrite string_app_cons in Hq].
    rewrite string_app_nil_l in Hq. subst u.
    apply (anchored_is_Some body body_free) in Hu. fold re in Hu.
    rewrite E in Hu. now apply is_Some_None in Hu.
  - rewrite exec_cons.
    destruct (rmatch re (String c s) Some) as [x|] eqn:E; [discriminate|].
    destruct (exec re s) as [[pre' rest']|] eqn:E'; [discriminate|].
    intros _ Hs Hu. apply is_suffix_of_tail in Hs as [->|Hs].
    + apply (anchored_is_Some body body_free) in Hu. fold re in Hu.
      rewrite E in Hu. now apply is_Some_None in Hu.
    + now apply (IH eq_refl Hs).
Qed.

(** [body$] matches somewhere in [s] exactly when [s] ends with a word. *)
Lemma test_anchored (s : string) :
  test re s = existsb (endsWith s) (words body).
Proof.
  apply eq_true_iff_eq. rewrite existsb_exists. unfold test. split.
  - destruct (exec re s) as [[pre rest]|] eqn:E; [|discriminate].
    intros _. apply exec_anchored_inv in E as (_ & w & Hw & ->).
    exists w. split; [exact Hw|]. apply endsWith_spec. now exists pre.
  - intros (w & Hw & Hs). apply endsWith_spec in Hs.
    destruct (exec re s) as [[pre rest]|] eqn:E; [reflexivity|].
    exfalso. exact (exec_anchored_none_inv s w E Hs Hw).
Qed.

Lemma replace_anchored_cases (s repl : string) :
  (test re s = false /\ replace s re repl = s)
  \/ (exists p w, In w (words body) /\ s = p +:+ w
                 /\ test re s = true /\ replace s re repl = p +:+ repl).
Proof.
  unfold test, replace. destruct (exec re s) as [[pre rest]|] eqn:E.
  - right. apply exec_anchored_inv in E as (-> & w & Hw & ->).
    exists pre, w. now rewrite string_app_nil_r.
  - now left.
Qed.

End AnchoredExec.

(** Words of two sets that are never suffixes of one another cannot both
    end the same string. *)
Lemma suffix_sets_exclusive (ws ws' : list string) (t : string) :
  forallb (fun w => forallb (fun w' => negb (endsWith w w') && negb (endsWith w' w)) ws')
    ws = true ->
  existsb (endsWith t) ws = true ->
  existsb (endsWith t) ws' = true ->
  False.
Proof.
  intros Hclear H1 H2.
  apply existsb_exists in H1 as (w & Hw & H1).
  apply existsb_exists in H2 as (w' & Hw' & H2).
  rewrite forallb_forall in Hclear. specialize (Hclear w Hw).
  rewrite forallb_forall in Hclear. specialize (Hclear w' Hw').
  apply andb_true_iff in Hclear as [Ha Hb]. apply negb_true_iff in Ha, Hb.
  apply endsWith_spec in H1 as [p Hp]. apply endsWith_spec in H2 as [q Hq].
  rewrite Hp in Hq. apply suffix_comparable in Hq as [Hs|Hs].
  - now apply (endsWith_false _ _ Ha).
  - now apply (endsWith_false _ _ Hb).
Qed.

Ltac each_pattern H :=
  unfold COMPONENT_LOCATIONS_REGEX in H; cbv zeta in H; cbn [In] in H;
  destruct H as [<-|[<-|[<-|[<-|[]]]]].

Lemma tests_by_families (t : string) :
  map (fun re => test re t) COMPONENT_LOCATIONS_REGEX
  = map (fun ws => existsb (endsWith t) ws) Convention.suffixFamilies.
Proof.
  unfold COMPONENT_LOCATIONS_REGEX; cbv zeta. cbn [map].
  now rewrite !test_anchored by reflexivity.
Qed.

(** At most one pattern matches a string. *)
Lemma patterns_exclusive (t : string) (re re' : regex) :
  In re COMPONENT_LOCATIONS_REGEX -> In re' COMPONENT_LOCATIONS_REGEX ->
  test re t = true -> test re' t = true -> re = re'.
Proof.
  intros Hre Hre'. each_pattern Hre; each_pattern Hre'; try reflexivity.
  all: intros H1 H2; rewrite test_anchored in H1, H2 by reflexivity.
  all: exfalso; refine (suffix_sets_exclusive _ _ t _ H1 H2).
  all: vm_compute; reflexivity.
Qed.

Lemma pattern_replace_cases (t : string) (re : regex) :
  In re COMPONENT_LOCATIONS_REGEX ->
  (test re t = false /\ replace t re "/README.md" = t)
  \/ (exists p w, In w Convention.descriptorSuffixes /\ t = p +:+ w
                 /\ test re t = true
                 /\ replace t re "/README.md" = p +:+ "/README.md").
Proof.
  intros Hre. each_pattern Hre.
  all: match goal with
       | |- context [replace ?s (RSeq ?b REnd) _] =>
           destruct (replace_anchored_cases b eq_refl s "/README.md")
             as [Hno|(p & w & Hw & Ht & Htest & Hrep)]
       end.
  all: try (left; exact Hno).
  all: right; exists p, w; split; [|now split].
  all: apply in_concat; eexists; split; [|exact Hw].
  all: vm_compute; repeat (try (left; reflexivity); right).
Qed.

(** A string that ends in [/README.md] matches no pattern. *)
Lemma readme_stable (p : string) (re : regex) :
  In re COMPONENT_LOCATIONS_REGEX ->
  replace (p +:+ "/README.md") re "/README.md" = p +:+ "/README.md".
Proof.
  intros Hre. each_pattern Hre; now rewrite replace_skip by (vm_compute; reflexivity).
Qed.

Lemma rewrite_readme_any_order (l : list regex) (p : string) :
  (forall re, In re l -> In re COMPONENT_LOCATIONS_REGEX) ->
  fold_left (fun str re => replace str re "/README.md") l (p +:+ "/README.md")
  = p +:+ "/README.md".
Proof.
  induction l as [|re l' IH]; intros Hl; [reflexivity|]. cbn [fold_left].
  rewrite readme_stable by (apply Hl; now left).
  apply IH. intros re' Hin. apply Hl. now right.
Qed.

Lemma rewrite_unmatched_any_order (l : list regex) (t : string) :
  (forall re, In re l -> test re t = false) ->
  fold_left (fun str re => replace str re "/README.md") l t = t.
Proof.
  induction l as [|re l' IH]; intros Hno; [reflexivity|]. cbn [fold_left].
  rewrite replace_no_match by (apply Hno; now left).
  apply IH. intros re' Hin. apply Hno. now right.
Qed.

Lemma rewrite_matched_any_order (l : list regex) (t : string) (re0 : regex) :
  (forall re, In re l -> In re COMPONENT_LOCATIONS_REGEX) ->
  In re0 COMPONENT_LOCATIONS_REGEX -> test re0 t = true -> In re0 l ->
  fold_left (fun str re => replace str re "/README.md") l t
  = replace t re0 "/README.md".
Proof.
  intros Hl Hre0 Htest. induction l as [|re l' IH]; intros Hin; [destruct Hin|].
  assert (Hl' : forall re', In re' l' -> In re' COMPONENT_LOCATIONS_REGEX)
    by (intros re' Hin'; apply Hl; now right).
  cbn [fold_left]. destruct (test re t) eqn:Hre.
  - assert (re = re0) as ->
        by (apply (patterns_exclusive t); auto; apply Hl; now left).
    destruct (pattern_replace_cases t re0 Hre0)
      as [[Hf _]|(p & w & _ & _ & _ & ->)]; [congruence|].
    now apply rewrite_readme_any_order.
  - rewrite replace_no_match by exact Hre. destruct Hin as [->|Hin]; [congruence|].
    now apply IH.
Qed.

(** The rewrite of a target: nothing when no pattern matches it, and else
    the one suffix that ends it is replaced. *)
Lemma readmeUrlOf_cases (t : string) :
  ((forall re, In re COMPONENT_LOCATIONS_REGEX -> test re t = false)
   /\ readmeUrlOf t = t)
  \/ (exists re p w,
        In re COMPONENT_LOCATIONS_REGEX /\ test re t = true
        /\ In w Convention.descriptorSuffixes /\ t = p +:+ w
        /\ replace t re "/README.md" = p +:+ "/README.md"
        /\ readmeUrlOf t = p +:+ "/README.md").
Proof.
  destruct (existsb (fun re => test re t) COMPONENT_LOCATIONS_REGEX) eqn:E.
  - right. apply existsb_exists in E as (re & Hre & Htest).
    destruct (pattern_replace_cases t re Hre)
      as [[Hf _]|(p & w & Hw & Ht & _ & Hrep)]; [congruence|].
    exists re, p, w. repeat (split; [assumption|]).
    unfold readmeUrlOf. rewrite <- Hrep.
    now apply rewrite_matched_any_order.
  - left. assert (Hno : forall re, In re COMPONENT_LOCATIONS_REGEX -> test re t = false).
    { intros re Hre. destruct (test re t) eqn:Ht; [|reflexivity].
      assert (existsb (fun re => test re t) COMPONENT_LOCATIONS_REGEX = true)
        by (apply existsb_exists; eauto).
      congruence. }
    split; [exact Hno|]. unfold readmeUrlOf.
    now apply rewrite_unmatched_any_order.
Qed.

End PatternLanguage.

(** ** More on the rewrite of the target *)

Section RewriteProperties.

Import JsString Regex.

Ltac in_patterns :=
  unfold COMPONENT_LOCATIONS_REGEX; cbv zeta; cbn [In];
  repeat (try (left; reflexivity); right).

(** X1. Each pattern matches a string exactly when the string ends with one
    of the suffixes of its family: the descriptor file for the first two,
    the components file under [dev], [int], [prod] or directly under
    [.devhub] for the last two. *)
Theorem patterns_match_suffix_families (t : string) :
  Forall2 (fun re ws => test re t = true <-> exists w, In w ws /\ is_suffix w t)
    COMPONENT_LOCATIONS_REGEX Convention.suffixFamilies.
Proof.
  unfold COMPONENT_LOCATIONS_REGEX, Convention.suffixFamilies; cbv zeta.
  repeat (apply List.Forall2_cons;
          [rewrite test_anchored by reflexivity; rewrite existsb_exists;
           split; intros (w & Hw & Hs); exists w; (split; [exact Hw|]);
           now apply endsWith_spec|]).
  apply List.Forall2_nil.
Qed.

(** X2. No string is matched by two of the four patterns. *)
Theorem at_most_one_pattern_matches (t : string) :
  length (List.filter (fun re => test re t) COMPONENT_LOCATIONS_REGEX) <= 1.
Proof.
  assert (Hex : forall re re',
             In re COMPONENT_LOCATIONS_REGEX -> In re' COMPONENT_LOCATIONS_REGEX ->
             test re t = true -> test re' t = true -> re = re')
    by apply patterns_exclusive.
  revert Hex. unfold COMPONENT_LOCATIONS_REGEX; cbv zeta. intros Hex.
  cbn [List.filter].
  repeat match goal with
         | |- context [if test ?re ?s then _ else _] =>
             let H := fresh "Ht" in destruct (test re s) eqn:H
         end; cbn [length]; try lia.
  all: exfalso.
  all: match goal with
       | Ha : test ?a ?s = true, Hb : test ?b ?s = true |- _ =>
           assert (Hab : a = b)
             by (apply Hex; [cbn [In]; repeat (try (left; reflexivity); right)
                            |cbn [In]; repeat (try (left; reflexivity); right)
                            |exact Ha|exact Hb]);
           vm_compute in Hab; discriminate Hab
       end.
Qed.

(** X3. The order of the four patterns does not matter: replacing with
    them in any order gives the URL the source order gives. *)
Theorem rewrite_order_irrelevant (l : list regex) (t : string) :
  Permutation l COMPONENT_LOCATIONS_REGEX ->
  fold_left (fun str re => replace str re "/README.md") l t = readmeUrlOf t.
Proof.
  intros Hperm.
  assert (Hl : forall re, In re l -> In re COMPONENT_LOCATIONS_REGEX)
    by (intros re; apply Permutation_in; exact Hperm).
  destruct (readmeUrlOf_cases t)
    as [[Hno ->]|(re & p & w & Hre & Htest & _ & _ & Hrep & ->)].
  - apply rewrite_unmatched_any_order. intros re Hin. now apply Hno, Hl.
  - rewrite <- Hrep. apply rewrite_matched_any_order; auto.
    apply (Permutation_in re (Permutation_sym Hperm) Hre).
Qed.

Lemma existsb_concat {A} (f : A -> bool) (ls : list (list A)) :
  existsb f (concat ls) = existsb (existsb f) ls.
Proof.
  induction ls as [|x ls IH]; [reflexivity|].
  cbn [concat existsb]. now rewrite existsb_app, IH.
Qed.

Lemma existsb_map {A B} (g : A -> B) (f : B -> bool) (xs : list A) :
  existsb f (map g xs) = existsb (fun x => f (g x)) xs.
Proof.
  induction xs as [|x xs IH]; [reflexivity|].
  cbn [map existsb]. now rewrite IH.
Qed.

(** A string ends with one of the ten suffixes exactly when one of the four
    patterns matches it. *)
Lemma suffix_match_is_pattern_match (t : string) :
  existsb (endsWith t) Convention.descriptorSuffixes
  = existsb (fun re => test re t) COMPONENT_LOCATIONS_REGEX.
Proof.
  unfold Convention.descriptorSuffixes. rewrite existsb_concat.
  rewrite <- (existsb_map (fun ws => existsb (endsWith t) ws) (fun b => b)).
  rewrite <- (existsb_map (fun re => test re t) (fun b => b)).
  now rewrite tests_by_families.
Qed.

(** X4. The rewritten URL is the target itself when the target ends with
    none of the ten suffixes, and else the target with the suffix that ends
    it replaced by [/README.md]: nothing before the suffix changes. *)
Theorem readmeUrlOf_shape (t : string) :
  (existsb (endsWith t) Convention.descriptorSuffixes = false
   /\ readmeUrlOf t = t)
  \/ (exists p w, In w Convention.descriptorSuffixes /\ t = p +:+ w
                 /\ readmeUrlOf t = p +:+ "/README.md").
Proof.
  destruct (readmeUrlOf_cases t)
    as [[Hno Heq]|(re & p & w & _ & _ & Hw & Ht & _ & Heq)].
  - left. split; [|exact Heq].
    rewrite suffix_match_is_pattern_match.
    destruct (existsb (fun re => test re t) COMPONENT_LOCATIONS_REGEX) eqn:E;
      [|reflexivity].
    apply existsb_exists in E as (re & Hre & Htest).
    rewrite (Hno re Hre) in Htest. discriminate Htest.
  - right. now exists p, w.
Qed.

(** X5. Rewriting twice is rewriting once: a rewritten URL is not
    rewritten again. *)
Theorem readmeUrlOf_idempotent (t : string) :
  readmeUrlOf (readmeUrlOf t) = readmeUrlOf t.
Proof.
  destruct (readmeUrlOf_cases t)
    as [[_ Heq]|(re & p & w & _ & _ & _ & _ & _ & Heq)].
  - now rewrite !Heq.
  - rewrite Heq. unfold readmeUrlOf. now apply rewrite_readme_any_order.
Qed.

(** X6. The environment directory is optional: a target that ends in
    [/.devhub/components.yaml], plain or with its slashes encoded, is
    rewritten as well. *)
Theorem readmeUrlOf_components_yaml_without_env (encoded : bool) (p : string) :
  readmeUrlOf (p +:+ (if encoded then "%2F.devhub%2Fcomponents.yaml"
                      else "/.devhub/components.yaml"))
  = p +:+ "/README.md".
Proof.
  destruct encoded; unfold readmeUrlOf, COMPONENT_LOCATIONS_REGEX;
    cbv zeta; cbn [fold_left].
  - do 3 rewrite replace_skip by (vm_compute; reflexivity).
    now rewrite replace_suffix by (vm_compute; reflexivity).
  - do 2 rewrite replace_skip by (vm_compute; reflexivity).
    rewrite replace_suffix by (vm_compute; reflexivity).
    now rewrite replace_skip by (vm_compute; reflexivity).
Qed.


End RewriteProperties.

(** ** More on the probe and the handler *)

Section ProbeEffects.

Context `{CatalogModel}.

Lemma search_calls_app (t1 t2 : list Event) :
  search_calls (t1 ++ t2) = search_calls t1 ++ search_calls t2.
Proof.
  induction t1 as [|[msg|u] t1 IH]; [reflexivity| |]; simpl; now rewrite IH.
Qed.

(** One run of the probe searches nothing, or it has a non-empty annotation
    that parses and searches the rewritten target, once. *)
Lemma probe_search_calls_cases (entity : Entity.t) (reader : UrlReaderService) :
  ((forall loc ref, sourceLocationOf entity = Some loc ->
                    String.eqb loc "" = false ->
                    parseLocationRef loc <> Returns ref)
   /\ search_calls (trace (checkReadmeFile entity reader)) = [])
  \/ (exists loc ref,
        sourceLocationOf entity = Some loc /\ String.eqb loc "" = false
        /\ parseLocationRef loc = Returns ref
        /\ search_calls (trace (checkReadmeFile entity reader))
           = [readmeUrlOf (target ref)]).
Proof.
  destruct (sourceLocationOf entity) as [loc|] eqn:Hloc.
  - destruct (String.eqb_spec loc "") as [->|Hne].
    + left. rewrite (checkReadmeFile_empty entity reader Hloc).
      split; [|reflexivity]. intros loc ref Hl Hne. injection Hl as <-.
      discriminate Hne.
    + destruct (parseLocationRef loc) as [ref|e] eqn:Hparse.
      * right. exists loc, ref. split; [reflexivity|].
        split; [now apply String.eqb_neq|]. split; [exact Hparse|].
        exact (checkReadmeFile_search_calls entity reader _ Hloc Hne _ Hparse).
      * left. rewrite (checkReadmeFile_parse_throws entity reader _ Hloc Hne _ Hparse).
        split; [|reflexivity]. intros loc' ref Hl _. injection Hl as <-.
        rewrite Hparse. discriminate.
  - left. rewrite (checkReadmeFile_absent entity reader Hloc).
    split; [|reflexivity]. intros loc ref Hl. discriminate Hl.
Qed.

(** X8. An annotation that is the empty string counts as absent: the probe
    returns [false] at once, calls no search and logs nothing. *)
Theorem checkReadmeFile_empty_annotation
  (entity : Entity.t) (reader : UrlReaderService) :
  sourceLocationOf entity = Some "" ->
  outcome (checkReadmeFile entity reader) = Returns false
  /\ trace (checkReadmeFile entity reader) = [].
Proof.
  intros Hloc. now rewrite (checkReadmeFile_empty entity reader Hloc).
Qed.

(** X9. The probe calls the search at most once, and it calls it exactly
    when the annotation is there, is not the empty string and parses: a
    location that does not parse is never searched. *)
Theorem search_called_iff_parsed (entity : Entity.t) (reader : UrlReaderService) :
  length (search_calls (trace (checkReadmeFile entity reader))) <= 1
  /\ (search_calls (trace (checkReadmeFile entity reader)) <> []
      <-> exists loc ref,
            sourceLocationOf entity = Some loc
            /\ String.eqb loc "" = false
            /\ parseLocationRef loc = Returns ref).
Proof.
  destruct (probe_search_calls_cases entity reader)
    as [[Hno ->]|(loc & ref & Hloc & Hne & Hparse & ->)].
  - split; [simpl; lia|]. split; [intros Hf; now destruct Hf|].
    intros (loc & ref & Hloc & Hne & Hparse). now destruct (Hno loc ref).
  - split; [simpl; lia|]. split; [|intros _ Hf; discriminate Hf].
    intros _. now exists loc, ref.
Qed.

(** When the reader throws for every URL, the probe still returns, and it
    returns [false]. *)
Lemma checkReadmeFile_reader_down (entity : Entity.t) (reader : UrlReaderService) :
  (forall u, exists e, search reader u = Throws e) ->
  outcome (checkReadmeFile entity reader) = Returns false.
Proof.
  intros Hdown.
  destruct (sourceLocationOf entity) as [loc|] eqn:Hloc;
    [|now rewrite (checkReadmeFile_absent entity reader Hloc)].
  destruct (String.eqb_spec loc "") as [->|Hne];
    [now rewrite (checkReadmeFile_empty entity reader Hloc)|].
  destruct (parseLocationRef loc) as [ref|e] eqn:Hparse;
    [|now rewrite (checkReadmeFile_parse_throws entity reader _ Hloc Hne _ Hparse)].
  destruct (Hdown (readmeUrlOf (target ref))) as [e He].
  now rewrite (checkReadmeFile_search_throws entity reader _ Hloc Hne _ Hparse _ He).
Qed.

(** X10. The fact [hasDefinition] of an entity is truthy exactly when the
    entity has a [spec] whose [definition] is a non-empty string, and it is
    then the boolean [true]. *)
Theorem hasDefinition_truthy_iff (reader : UrlReaderService) (entity : Entity.t) :
  exists record,
    outcome (entityFact reader entity) = Returns record
    /\ (JsValue.truthy (Fact.hasDefinition (Fact.facts record)) = true
        <-> exists sp c d,
              Entity.spec entity = Some sp
              /\ Entity.definition sp = Some (String c d))
    /\ (JsValue.truthy (Fact.hasDefinition (Fact.facts record)) = true ->
        Fact.hasDefinition (Fact.facts record) = JsValue.Bool true).
Proof.
  destruct (entityFact_run reader entity) as (v & b & Hv & _ & ->).
  eexists. split; [reflexivity|]. cbn [Fact.facts Fact.hasDefinition].
  rewrite hasDefinition_value in Hv. injection Hv as <-.
  destruct (Entity.spec entity) as [[[[|c d]|]]|]; cbn.
  - split; [split; [discriminate|]|discriminate].
    intros (sp & c & d & Hsp & Hd). injection Hsp as <-. discriminate Hd.
  - split; [split; [|reflexivity]|reflexivity].
    intros _. now exists {| Entity.definition := Some (String c d) |}, c, d.
  - split; [split; [discriminate|]|discriminate].
    intros (sp & c & d & Hsp & Hd). injection Hsp as <-. discriminate Hd.
  - split; [split; [discriminate|]|discriminate].
    intros (sp & c & d & Hsp & Hd). discriminate Hsp.
Qed.

(** X13. A search is announced in the log before it is made: a run of the
    probe that searches [u] starts by logging [->>> searching u] and then
    calls the search with [u]. *)
Theorem search_is_announced
  (entity : Entity.t) (reader : UrlReaderService) (u : string) :
  In u (search_calls (trace (checkReadmeFile entity reader))) ->
  exists rest,
    trace (checkReadmeFile entity reader)
    = LogInfo ("->>> searching " +:+ u) :: Search u :: rest
    /\ search_calls rest = [].
Proof.
  destruct (sourceLocationOf entity) as [loc|] eqn:Hloc;
    [|rewrite (checkReadmeFile_absent entity reader Hloc); intros []].
  destruct (String.eqb_spec loc "") as [->|Hne];
    [rewrite (checkReadmeFile_empty entity reader Hloc); intros []|].
  destruct (parseLocationRef loc) as [ref|e] eqn:Hparse;
    [|rewrite (checkReadmeFile_parse_throws entity reader _ Hloc Hne _ Hparse);
      intros []].
  destruct (search reader (readmeUrlOf (target ref))) as [[[fs|]]|e] eqn:Hsearch.
  - rewrite (checkReadmeFile_search_returns entity reader _ Hloc Hne _ Hparse _ Hsearch).
    intros [<-|[]]. eexists. split; reflexivity.
  - rewrite (checkReadmeFile_search_no_files entity reader _ Hloc Hne _ Hparse Hsearch).
    intros [<-|[]]. eexists. split; reflexivity.
  - rewrite (checkReadmeFile_search_throws entity reader _ Hloc Hne _ Hparse _ Hsearch).
    intros [<-|[]]. eexists. split; reflexivity.
Qed.

(** The search calls of the fan-out, entity by entity. *)
Lemma search_calls_promise_all (reader : UrlReaderService) (es : list Entity.t) :
  search_calls (trace (promise_all (map (entityFact reader) es)))
  = flat_map (fun e => search_calls (trace (checkReadmeFile e reader))) es.
Proof.
  induction es as [|e es IH]; [reflexivity|].
  cbn [map promise_all flat_map].
  destruct (entityFact_run reader e) as (v & b & _ & _ & ->).
  destruct (promise_all (map (entityFact reader) es)) as [t2 o2].
  cbn [trace fst] in *. cbn [trace fst].
  now rewrite search_calls_app, IH.
Qed.

Lemma search_calls_fan_out_bound (reader : UrlReaderService) (es : list Entity.t) :
  length (flat_map (fun e => search_calls (trace (checkReadmeFile e reader))) es)
  <= length es.
Proof.
  induction es as [|e es IH]; [reflexivity|].
  cbn [flat_map]. rewrite length_app.
  destruct (probe_search_calls_cases e reader)
    as [[_ ->]|(loc & ref & _ & _ & _ & ->)]; simpl; lia.
Qed.

End ProbeEffects.

Section HandlerEffects.

Context {Discovery Credentials : Type}.
Context `{CatalogModel} `{CatalogClientApi Discovery}.

Variable ctx : FactRetrieverContext Discovery Credentials.
Variable credentials : Credentials.
Variable tokenResult : TokenResult.
Variable entities : GetEntitiesResponse.
Hypothesis Hcredentials :
  getOwnServiceCredentials (auth ctx) = Returns credentials.
Hypothesis Htoken :
  getPluginRequestToken (auth ctx)
    {| onBehalfOf := credentials; targetPluginId := "catalog" |}
  = Returns tokenResult.
Hypothesis Hentities :
  getEntities (discovery ctx) {| filter := {| filter_kind := ["API"] |} |}
    tokenResult
  = Returns entities.

(** X11. When the catalog has answered, the searches of the handler are those
    of the probes of the listed entities, issued in the order of the list:
    at most one per entity, and none for an empty list. *)
Theorem handler_search_calls :
  search_calls (trace (handler ctx))
  = flat_map (fun e => search_calls (trace (checkReadmeFile e (urlReader ctx))))
      (items entities)
  /\ length (search_calls (trace (handler ctx))) <= length (items entities).
Proof.
  rewrite (handler_run ctx _ _ _ Hcredentials Htoken Hentities).
  rewrite search_calls_promise_all. split; [reflexivity|].
  apply search_calls_fan_out_bound.
Qed.

(** X12. When the catalog has answered and the reader throws for every URL,
    the handler still returns one record per entity, each with [hasReadme]
    false. *)
Theorem handler_reader_down :
  (forall u, exists e, search (urlReader ctx) u = Throws e) ->
  exists records,
    outcome (handler ctx) = Returns records
    /\ length records = length (items entities)
    /\ forall record, In record records ->
                      Fact.hasReadme (Fact.facts record) = false.
Proof.
  intros Hdown. rewrite (handler_run ctx _ _ _ Hcredentials Htoken Hentities).
  destruct (promise_all_map_returns (entityFact (urlReader ctx)) (items entities)
              (entityFact_returns (urlReader ctx))) as (l & Hl & Hlen & Hnth).
  exists l. split; [exact Hl|]. split; [exact Hlen|].
  intros record Hin. apply In_nth_error in Hin as [i Hi].
  assert (Hlt : i < length (items entities)).
  { rewrite <- Hlen. apply nth_error_Some. now rewrite Hi. }
  destruct (nth_error (items entities) i) as [entity|] eqn:He;
    [|apply nth_error_None in He; lia].
  destruct (Hnth i entity He) as (r & Hr & Hrec).
  rewrite Hi in Hr. injection Hr as <-.
  destruct (entityFact_run (urlReader ctx) entity) as (v & b & _ & Hb & Hrun).
  rewrite Hrun in Hrec. cbn in Hrec. injection Hrec as <-.
  cbn. rewrite (checkReadmeFile_reader_down entity (urlReader ctx) Hdown) in Hb.
  now injection Hb as <-.
Qed.

End HandlerEffects.

(** ** More concrete runs *)

Section MoreRuns.

Local Abbreviation model := Sample.catalogModel.
Local Abbreviation probe := (@checkReadmeFile Sample.catalogModel).
Local Abbreviation run es reader :=
  (@handler unit unit Sample.catalogModel (Sample.catalogOf es) (Sample.ctx reader)).

Lemma rewrite_order_irrelevant_witness :
  fold_left (fun str re => Regex.replace str re "/README.md")
    (rev COMPONENT_LOCATIONS_REGEX)
    "https://git.example/acme/billing/.devhub/prod/components.yaml"
  = readmeUrlOf "https://git.example/acme/billing/.devhub/prod/components.yaml".
Proof.
  apply rewrite_order_irrelevant. apply Permutation_sym, Permutation_rev.
Defined.


Lemma checkReadmeFile_empty_annotation_witness :
  outcome (probe Sample.blank (Sample.readerFinding 1)) = Returns false
  /\ trace (probe Sample.blank (Sample.readerFinding 1)) = [].
Proof.
  apply (@checkReadmeFile_empty_annotation model Sample.blank (Sample.readerFinding 1)).
  vm_compute. reflexivity.
Defined.

Lemma search_is_announced_witness :
  exists rest,
    trace (probe Sample.orders Sample.readerDown)
    = LogInfo "->>> searching https://git.example/acme/orders/blob/main/README.md"
      :: Search "https://git.example/acme/orders/blob/main/README.md" :: rest
    /\ search_calls rest = [].
Proof.
  apply (@search_is_announced model Sample.orders Sample.readerDown
           "https://git.example/acme/orders/blob/main/README.md").
  vm_compute. left. reflexivity.
Defined.

Lemma handler_search_calls_witness :
  search_calls
    (trace (run [Sample.orders; Sample.unparsable; Sample.blank; Sample.billing]
              (Sample.readerFinding 1)))
  = ["https://git.example/acme/orders/blob/main/README.md";
     "https://git.example/acme/billing/README.md"].
Proof.
  destruct (@handler_search_calls unit unit Sample.catalogModel
              (Sample.catalogOf [Sample.orders; Sample.unparsable; Sample.blank;
                                 Sample.billing])
              (Sample.ctx (Sample.readerFinding 1)) tt {| token := "t0" |}
              {| items := [Sample.orders; Sample.unparsable; Sample.blank;
                           Sample.billing] |}
              eq_refl eq_refl eq_refl) as [Hcalls _].
  rewrite Hcalls. vm_compute. reflexivity.
Defined.

Lemma handler_reader_down_witness :
  exists records,
    outcome (run [Sample.orders; Sample.legacy] Sample.readerDown) = Returns records
    /\ length records = 2
    /\ forall record, In record records ->
                      Fact.hasReadme (Fact.facts record) = false.
Proof.
  apply (@handler_reader_down unit unit Sample.catalogModel
           (Sample.catalogOf [Sample.orders; Sample.legacy])
           (Sample.ctx Sample.readerDown) tt {| token := "t0" |}
           {| items := [Sample.orders; Sample.legacy] |}
           eq_refl eq_refl eq_refl).
  intros u. eexists. reflexivity.
Defined.

End MoreRuns.
